(** * Upcast of view tables: the scanner and the two converters of
    [src/converters/upcasttable.js], embedded and verified.

    The file has two halves.  The first holds the embedding: the JavaScript
    values the module computes with, the view tree it reads, the scanner
    ([scanTable], [scanRowForHeadingColumns]) and the two conversion handlers
    ([upcastTable], [upcastTableCell]) written as programs over the calls of
    the conversion API.  The second half holds the lemmas and the theorems. *)

From Stdlib Require Import ZArith Ascii String List Bool Lia.
From stdpp Require Import base option list strings gmap.

Local Open Scope string_scope.
Local Open Scope list_scope.

(* ===================================================================== *)
(** * Part I.  The embedding                                              *)
(* ===================================================================== *)

(** ** JavaScript values *)

Module Js.

(** A JavaScript number as this module meets it: an integer or [NaN].  The
    scanner only adds integers read by [parseInt] and compares the sums, so
    the integer part is kept exact in [Z] (a double is exact for integers up
    to 2^53 in magnitude; beyond that JavaScript rounds, in the end to
    [Infinity], and the model is an idealisation).  The
    negative zero that [parseInt("-0")] yields is identified with [0]: the
    only operations applied to it are [0 + x] and [x > y], which do not tell
    the two zeros apart. *)
Inductive number : Type :=
| NaN
| Num (z : Z).

(** [a + b] on numbers. *)
Definition add (a b : number) : number :=
  match a, b with
  | Num x, Num y => Num (x + y)
  | _, _ => NaN
  end.

(** [a > b]: false as soon as one side is [NaN]. *)
Definition gt (a b : number) : bool :=
  match a, b with
  | Num x, Num y => (y <? x)%Z
  | _, _ => false
  end.

(** [x++] on a number. *)
Definition incr (a : number) : number := add a (Num 1).

(** Truthiness of a number ([if ( n )]): every number but [0] and [NaN]. *)
Definition truthy (a : number) : bool :=
  match a with
  | Num z => negb (z =? 0)%Z
  | NaN => false
  end.

(** An exception thrown by the code. *)
Inductive error : Type :=
| TypeError (message : string).

(** The outcome of a call: a value, or a thrown exception. *)
Inductive completion (A : Type) : Type :=
| Normal (a : A)
| Throw (e : error).
Arguments Normal {A} a.
Arguments Throw {A} e.

(** *** [parseInt]

    Strings are sequences of one-byte code units; [parseInt( s )] is called
    without a radix.  The definition is exact on strings of ASCII characters
    that denote an integer of magnitude 2^53 at most: it knows neither the
    white space beyond one byte nor the rounding of larger integers, and
    what is proved of it alone is stated within that range. *)

(** The white space [parseInt] skips: TAB, LF, VT, FF, CR, SP and NBSP. *)
Definition is_white_space (c : ascii) : bool :=
  let n := nat_of_ascii c in
  (Nat.leb 9 n && Nat.leb n 13) || Nat.eqb n 32 || Nat.eqb n 160.

Fixpoint trim_start (s : string) : string :=
  match s with
  | String c rest => if is_white_space c then trim_start rest else s
  | EmptyString => s
  end.

(** The value of a code unit as a digit of the given radix, if it is one. *)
Definition digit_value (radix : Z) (c : ascii) : option Z :=
  let n := Z.of_nat (nat_of_ascii c) in
  let v :=
    if (48 <=? n)%Z && (n <=? 57)%Z then Some (n - 48)%Z
    else if (97 <=? n)%Z && (n <=? 122)%Z then Some (n - 87)%Z
    else if (65 <=? n)%Z && (n <=? 90)%Z then Some (n - 55)%Z
    else None in
  match v with
  | Some d => if (d <? radix)%Z then Some d else None
  | None => None
  end.

(** The value of the longest prefix of digits, [None] when that prefix is
    empty ([acc] is the value read so far). *)
Fixpoint parse_digits (radix : Z) (s : string) (acc : option Z) : option Z :=
  match s with
  | String c rest =>
      match digit_value radix c with
      | Some d => parse_digits radix rest (Some (default 0%Z acc * radix + d)%Z)
      | None => acc
      end
  | EmptyString => acc
  end.

(** An optional sign in front. *)
Definition strip_sign (s : string) : Z * string :=
  match s with
  | String c rest =>
      if Ascii.eqb c "-" then ((-1)%Z, rest)
      else if Ascii.eqb c "+" then (1%Z, rest)
      else (1%Z, s)
  | EmptyString => (1%Z, s)
  end.

(** The radix: 16 after a prefix [0x] or [0X], which is dropped, else 10. *)
Definition strip_prefix (s : string) : Z * string :=
  match s with
  | String c (String x rest) =>
      if Ascii.eqb c "0" && (Ascii.eqb x "x" || Ascii.eqb x "X")
      then (16%Z, rest)
      else (10%Z, s)
  | _ => (10%Z, s)
  end.

Definition parseInt (input : string) : number :=
  let s := trim_start input in
  let '(sign, s) := strip_sign s in
  let '(radix, s) := strip_prefix s in
  match parse_digits radix s None with
  | Some m => Num (sign * m)
  | None => NaN
  end.

End Js.

#[export] Instance completion_ret : MRet Js.completion := @Js.Normal.
#[export] Instance completion_bind : MBind Js.completion :=
  fun A B f m => match m with Js.Normal a => f a | Js.Throw e => Js.Throw e end.

(** ** The view tree *)

(** A node of the view: a text node, or an element with a name, attributes
    and an ordered sequence of children. *)
#[warnings="-register-all"]
Inductive ViewNode : Type :=
| ViewText (data : string)
| ViewElement (name : string) (attrs : gmap string string)
    (children : list ViewNode).

(** [node.name]: undefined on a text node. *)
Definition node_name (node : ViewNode) : option string :=
  match node with
  | ViewElement name _ _ => Some name
  | ViewText _ => None
  end.

(** [node.name === s]. *)
Definition name_is (node : ViewNode) (s : string) : bool :=
  bool_decide (node_name node = Some s).

(** [Array.from( node.getChildren() )]: a text node has no such method, and
    the call throws. *)
Definition getChildren (node : ViewNode) : Js.completion (list ViewNode) :=
  match node with
  | ViewElement _ _ children => Js.Normal children
  | ViewText _ => Js.Throw (Js.TypeError "getChildren is not a function")
  end.

(** [node.getAttribute( key )]: the value, or undefined. *)
Definition getAttribute (node : ViewNode) (key : string)
  : Js.completion (option string) :=
  match node with
  | ViewElement _ attrs _ => Js.Normal (attrs !! key)
  | ViewText _ => Js.Throw (Js.TypeError "getAttribute is not a function")
  end.

(** ** The scanner *)

(** [parseInt( a || 1 )]: an undefined or empty attribute is falsy and gives
    way to the number [1], which [parseInt] reads as the string ["1"]. *)
Definition parseInt_or_1 (a : option string) : Js.number :=
  match a with
  | Some s => if bool_decide (s = "") then Js.parseInt "1" else Js.parseInt s
  | None => Js.parseInt "1"
  end.

(** The [while] loop of [scanRowForHeadingColumns]; [children] is what is
    left of the filtered array from [index] on. *)
Fixpoint count_heading_columns (children : list ViewNode)
    (headingColumns : Js.number) : Js.completion Js.number :=
  match children with
  | th :: rest =>
      if name_is th "th" then
        a ← getAttribute th "colspan";
        let colspan := parseInt_or_1 a in
        count_heading_columns rest (Js.add headingColumns colspan)
      else Js.Normal headingColumns
  | [] => Js.Normal headingColumns
  end.

Definition scanRowForHeadingColumns (tr : ViewNode) : Js.completion Js.number :=
  all ← getChildren tr;
  let children :=
    List.filter (fun child => name_is child "th" || name_is child "td") all in
  count_heading_columns children (Js.Num 0).

Record TableMeta : Type := {
  headingRows : Js.number;
  headingColumns : Js.number;
  rows : list ViewNode
}.

(** The variables of [scanTable] while it loops.  [firstTheadElement] is a
    reference to a child of the table: it is kept as the index of that child
    in the table's array of children, a node occurring once among the
    children of its parent. *)
Record ScanState : Type := {
  meta_headingRows : Js.number;
  meta_headingColumns : Js.number;
  headRows : list ViewNode;
  bodyRows : list ViewNode;
  firstTheadElement : option nat
}.

(** The body of the inner loop, for the child [tr] of [tableChild], the
    child of the table at [index]; [tr.parent] is [tableChild]. *)
Definition scan_tr (tableChild : ViewNode) (index : nat) (st : ScanState)
    (tr : ViewNode) : Js.completion ScanState :=
  if name_is tableChild "thead"
     && bool_decide (firstTheadElement st = Some index) then
    Js.Normal
      {| meta_headingRows := Js.incr (meta_headingRows st);
         meta_headingColumns := meta_headingColumns st;
         headRows := headRows st ++ [tr];
         bodyRows := bodyRows st;
         firstTheadElement := firstTheadElement st |}
  else
    headingCols ← scanRowForHeadingColumns tr;
    Js.Normal
      {| meta_headingRows := meta_headingRows st;
         meta_headingColumns :=
           if Js.gt headingCols (meta_headingColumns st) then headingCols
           else meta_headingColumns st;
         headRows := headRows st;
         bodyRows := bodyRows st ++ [tr];
         firstTheadElement := firstTheadElement st |}.

(** [for ( const x of xs ) body]: the loop stops at the first exception. *)
Fixpoint for_of {A S : Type} (xs : list A) (body : S -> A -> Js.completion S)
    (st : S) : Js.completion S :=
  match xs with
  | x :: rest => st' ← body st x; for_of rest body st'
  | [] => Js.Normal st
  end.

(** The body of the outer loop, for the child at [index]. *)
Definition scan_tableChild (index : nat) (st : ScanState)
    (tableChild : ViewNode) : Js.completion ScanState :=
  if name_is tableChild "tbody" || name_is tableChild "thead"
     || name_is tableChild "tfoot" then
    let st :=
      if name_is tableChild "thead"
         && bool_decide (firstTheadElement st = None) then
        {| meta_headingRows := meta_headingRows st;
           meta_headingColumns := meta_headingColumns st;
           headRows := headRows st;
           bodyRows := bodyRows st;
           firstTheadElement := Some index |}
      else st in
    trs ← getChildren tableChild;
    for_of trs (scan_tr tableChild index) st
  else Js.Normal st.

(** The outer loop from the child at [index] on. *)
Fixpoint scan_tableChildren (tableChildren : list ViewNode) (index : nat)
    (st : ScanState) : Js.completion ScanState :=
  match tableChildren with
  | tableChild :: rest =>
      st' ← scan_tableChild index st tableChild;
      scan_tableChildren rest (S index) st'
  | [] => Js.Normal st
  end.

Definition scanTable (viewTable : ViewNode) : Js.completion TableMeta :=
  tableChildren ← getChildren viewTable;
  st ← scan_tableChildren tableChildren 0
         {| meta_headingRows := Js.Num 0;
            meta_headingColumns := Js.Num 0;
            headRows := [];
            bodyRows := [];
            firstTheadElement := None |};
  Js.Normal
    {| headingRows := meta_headingRows st;
       headingColumns := meta_headingColumns st;
       rows := headRows st ++ bodyRows st |}.

(** ** The conversion API

    The converters talk to the engine through [conversionApi]: the ledger of
    consumed view items ([consumable]), the model [writer], the schema-aware
    [splitToAllowedParent] and the dispatcher's [convertItem] and
    [convertChildren].  None of this is code of the module; a converter is
    therefore embedded as a program that issues these calls and continues
    with their answers, whatever they are. *)

(** A reference to an element of the model (an object of the engine). *)
Abbreviation ModelElement := nat (only parsing).

(** Model positions, as the static constructors of [ModelPosition] build
    them: [createAt( item )], [createAt( item, 'end' )],
    [createBefore( item )] and [createAfter( item )].  A position is kept as
    the call that built it; which place of the tree it denotes is for the
    engine to say. *)
Inductive ModelPosition : Type :=
| createAt (item : ModelElement) (offset : option string)
| createBefore (item : ModelElement)
| createAfter (item : ModelElement).

Record ModelRange : Type := {
  range_start : ModelPosition;
  range_end : ModelPosition
}.

(** What [splitToAllowedParent] returns when it does not return [null]. *)
Record SplitResult : Type := {
  position : ModelPosition;
  cursorParent : option ModelElement
}.

(** The [data] object of a conversion event. *)
Record Data : Type := {
  viewItem : ViewNode;
  modelCursor : ModelPosition;
  modelRange : option ModelRange
}.

(** The calls a converter makes.  [consumable_test] and [consumable_consume]
    are always called with [{ name: true }]; [element_childCount] reads the
    property [childCount] of a model element. *)
Inductive ApiCall : Type :=
| consumable_test (item : ViewNode)
| consumable_consume (item : ViewNode)
| writer_createElement (name : string) (attributes : gmap string Js.number)
| writer_insert (item : ModelElement) (position : ModelPosition)
| writer_insertElement (name : string) (position : ModelPosition)
| splitToAllowedParent (item : ModelElement) (cursor : ModelPosition)
| convertItem (item : ViewNode) (cursor : ModelPosition)
| convertChildren (item : ViewNode) (cursor : ModelPosition)
| element_childCount (item : ModelElement).

(** The type of the answer to each call (the converters drop what
    [convertItem], [convertChildren] and the inserting calls return). *)
Definition answer (c : ApiCall) : Type :=
  match c with
  | consumable_test _ => bool
  | consumable_consume _ => bool
  | writer_createElement _ _ => ModelElement
  | splitToAllowedParent _ _ => option SplitResult
  | element_childCount _ => nat
  | _ => unit
  end.

(** A converter: it returns, throws, or makes a call and goes on. *)
Inductive Prog (A : Type) : Type :=
| Ret (a : A)
| Raise (e : Js.error)
| Call (c : ApiCall) (k : answer c -> Prog A).
Arguments Ret {A} a.
Arguments Raise {A} e.
Arguments Call {A} c k.

Fixpoint prog_bind {A B : Type} (k : A -> Prog B) (p : Prog A) : Prog B :=
  match p with
  | Ret a => k a
  | Raise e => Raise e
  | Call c k' => Call c (fun x => prog_bind k (k' x))
  end.

#[export] Instance prog_ret : MRet Prog := @Ret.
#[export] Instance prog_mbind : MBind Prog := @prog_bind.

Definition call (c : ApiCall) : Prog (answer c) := Call c Ret.

(** A computation of the module itself, run inside a converter: its
    exception, if any, propagates. *)
Definition lift {A : Type} (m : Js.completion A) : Prog A :=
  match m with
  | Js.Normal a => Ret a
  | Js.Throw e => Raise e
  end.

(** [xs.forEach( f )]. *)
Fixpoint forEach {A : Type} (xs : list A) (f : A -> Prog unit) : Prog unit :=
  match xs with
  | x :: rest => f x ;; forEach rest f
  | [] => Ret tt
  end.

(** Modelled from the spec: [createEmptyTableCell] of [commands/utils] is
    imported by the module and is not part of the sources at hand.  The spec
    has the empty table receive exactly one cell, made directly with the
    tree writer and placed at the given cursor. *)
Definition createEmptyTableCell (insertPosition : ModelPosition) : Prog unit :=
  tableCell ← call (writer_createElement "tableCell" ∅);
  call (writer_insert tableCell insertPosition).

(** The [attributes] object [upcastTable] builds from the scan. *)
Definition table_attributes (headingRows headingColumns : Js.number)
  : gmap string Js.number :=
  let attributes := ∅ in
  let attributes :=
    if Js.truthy headingColumns
    then <[ "headingColumns" := headingColumns ]> attributes
    else attributes in
  let attributes :=
    if Js.truthy headingRows
    then <[ "headingRows" := headingRows ]> attributes
    else attributes in
  attributes.

(** The listener [upcastTable] registers for [element:table].  It returns
    the [data] object as the listener leaves it.  [createElement] is given
    an empty attribute object where the source passes none. *)
Definition upcastTable_listener (data : Data) : Prog Data :=
  let viewTable := viewItem data in
  unconsumed ← call (consumable_test viewTable);
  if negb unconsumed then Ret data
  else
    meta ← lift (scanTable viewTable);
    let attributes :=
      table_attributes (headingRows meta) (headingColumns meta) in
    table ← call (writer_createElement "table" attributes);
    splitResult ← call (splitToAllowedParent table (modelCursor data));
    match splitResult with
    | None => Ret data
    | Some splitResult =>
        call (writer_insert table (position splitResult));;
        call (consumable_consume viewTable);;
        (if negb (Nat.eqb (length (rows meta)) 0) then
           forEach (rows meta)
             (fun row => call (convertItem row (createAt table (Some "end"))))
         else
           row ← call (writer_createElement "tableRow" ∅);
           call (writer_insert row (createAt table (Some "end")));;
           createEmptyTableCell (createAt row (Some "end")));;
        let modelRange :=
          {| range_start := createBefore table;
             range_end := createAfter table |} in
        let modelCursor :=
          match cursorParent splitResult with
          | Some parent => createAt parent None
          | None => range_end modelRange
          end in
        Ret {| viewItem := viewTable;
               modelCursor := modelCursor;
               modelRange := Some modelRange |}
    end.

(** The placeholder step of [upcastTableCell]:
    [if ( !tableCell.childCount ) writer.insertElement( 'paragraph', modelCursor )]. *)
Definition ensure_paragraph (tableCell : ModelElement)
    (modelCursor : ModelPosition) : Prog unit :=
  childCount ← call (element_childCount tableCell);
  if Nat.eqb childCount 0
  then call (writer_insertElement "paragraph" modelCursor)
  else Ret tt.

(** The listener [upcastTableCell( elementName )] registers. *)
Definition upcastTableCell_listener (data : Data) : Prog Data :=
  let viewTableCell := viewItem data in
  unconsumed ← call (consumable_test viewTableCell);
  if negb unconsumed then Ret data
  else
    tableCell ← call (writer_createElement "tableCell" ∅);
    splitResult ← call (splitToAllowedParent tableCell (modelCursor data));
    match splitResult with
    | None => Ret data
    | Some splitResult =>
        call (writer_insert tableCell (position splitResult));;
        call (consumable_consume viewTableCell);;
        let modelCursor := createAt tableCell None in
        call (convertChildren viewTableCell modelCursor);;
        ensure_paragraph tableCell modelCursor;;
        let modelRange :=
          {| range_start := createBefore tableCell;
             range_end := createAfter tableCell |} in
        Ret {| viewItem := viewTableCell;
               modelCursor := range_end modelRange;
               modelRange := Some modelRange |}
    end.

(** A dispatcher, seen from this module: its listeners by event name. *)
Definition Dispatcher : Type := list (string * (Data -> Prog Data)).

Definition upcastTable (dispatcher : Dispatcher) : Dispatcher :=
  ("element:table", upcastTable_listener) :: dispatcher.

Definition upcastTableCell (elementName : string) (dispatcher : Dispatcher)
  : Dispatcher :=
  (("element:" ++ elementName)%string, upcastTableCell_listener) :: dispatcher.

(** ** Running a converter against an engine *)

(** An engine over a state [W] (the model tree, the ledger and whatever the
    dispatcher keeps): what each call answers and how it changes the state.
    The two reads, [api_test] and [api_childCount], leave the state alone.
    Every call is taken to return: an exception of the engine is not an
    exception of this module. *)
Record ConversionApi (W : Type) : Type := {
  api_test : ViewNode -> W -> bool;
  api_consume : ViewNode -> W -> bool * W;
  api_createElement : string -> gmap string Js.number -> W -> ModelElement * W;
  api_insert : ModelElement -> ModelPosition -> W -> W;
  api_insertElement : string -> ModelPosition -> W -> W;
  api_split : ModelElement -> ModelPosition -> W -> option SplitResult * W;
  api_convertItem : ViewNode -> ModelPosition -> W -> W;
  api_convertChildren : ViewNode -> ModelPosition -> W -> W;
  api_childCount : ModelElement -> W -> nat
}.
Arguments api_test {W}.
Arguments api_consume {W}.
Arguments api_createElement {W}.
Arguments api_insert {W}.
Arguments api_insertElement {W}.
Arguments api_split {W}.
Arguments api_convertItem {W}.
Arguments api_convertChildren {W}.
Arguments api_childCount {W}.

Definition perform {W : Type} (api : ConversionApi W) (c : ApiCall) (w : W)
  : answer c * W :=
  match c with
  | consumable_test item => (api_test api item w, w)
  | consumable_consume item => api_consume api item w
  | writer_createElement name attributes =>
      api_createElement api name attributes w
  | writer_insert item pos => (tt, api_insert api item pos w)
  | writer_insertElement name pos => (tt, api_insertElement api name pos w)
  | splitToAllowedParent item cursor => api_split api item cursor w
  | convertItem item cursor => (tt, api_convertItem api item cursor w)
  | convertChildren item cursor => (tt, api_convertChildren api item cursor w)
  | element_childCount item => (api_childCount api item w, w)
  end.

(** The outcome of a run: what the converter returned or threw, the state
    of the engine at the end, and the calls made, in order. *)
Record Outcome (W A : Type) : Type := {
  returned : Js.completion A;
  final : W;
  calls : list ApiCall
}.
Arguments returned {W A}.
Arguments final {W A}.
Arguments calls {W A}.

Fixpoint exec {W A : Type} (api : ConversionApi W) (p : Prog A) (w : W)
  : Outcome W A :=
  match p with
  | Ret a => {| returned := Js.Normal a; final := w; calls := [] |}
  | Raise e => {| returned := Js.Throw e; final := w; calls := [] |}
  | Call c k =>
      let r := perform api c w in
      let o := exec api (k r.1) r.2 in
      {| returned := returned o; final := final o; calls := c :: calls o |}
  end.

(** What the engine is assumed to do where a property speaks of the content
    of the model tree.  [live item w] says that [item] is an element the
    writer has created by the state [w].  An element comes out of
    [createElement] new and without children, and elements stay live;
    [splitToAllowedParent] and [insert] leave the children of the element
    they are given alone; a new element inserted at the end of a parent
    gives that parent one more child and changes the number of children of
    no other element; the ledger does not touch the tree; an element
    inserted at the start of a cell gives the cell one more child.  A
    position is taken to denote, when it is used, the place its constructor
    names. *)
Record WriterLaws {W : Type} (api : ConversionApi W)
    (live : ModelElement -> W -> Prop) : Prop := {
  create_fresh : forall name attributes w,
    ~ live (api_createElement api name attributes w).1 w;
  create_live : forall name attributes w,
    live (api_createElement api name attributes w).1
         (api_createElement api name attributes w).2;
  create_keeps_live : forall name attributes w item,
    live item w -> live item (api_createElement api name attributes w).2;
  create_empty : forall name attributes w,
    api_childCount api (api_createElement api name attributes w).1
      (api_createElement api name attributes w).2 = 0;
  split_live : forall candidate cursor w item,
    live item w -> live item (api_split api candidate cursor w).2;
  split_candidate : forall candidate cursor w,
    api_childCount api candidate (api_split api candidate cursor w).2
    = api_childCount api candidate w;
  insert_live : forall item pos w other,
    live other w -> live other (api_insert api item pos w);
  insert_item : forall item pos w,
    api_childCount api item (api_insert api item pos w)
    = api_childCount api item w;
  insert_new_end : forall name attributes parent w,
    live parent w ->
    api_childCount api parent
      (api_insert api (api_createElement api name attributes w).1
         (createAt parent (Some "end"))
         (api_createElement api name attributes w).2)
    = S (api_childCount api parent w);
  insert_new_frame : forall name attributes parent w other,
    live other w -> other <> parent ->
    api_childCount api other
      (api_insert api (api_createElement api name attributes w).1
         (createAt parent (Some "end"))
         (api_createElement api name attributes w).2)
    = api_childCount api other w;
  consume_live : forall viewItem w item,
    live item w -> live item (api_consume api viewItem w).2;
  consume_frame : forall viewItem w item,
    api_childCount api item (api_consume api viewItem w).2
    = api_childCount api item w;
  convertChildren_live : forall viewItem cursor w item,
    live item w -> live item (api_convertChildren api viewItem cursor w);
  insertElement_start : forall name parent w,
    live parent w ->
    api_childCount api parent
      (api_insertElement api name (createAt parent None) w)
    = S (api_childCount api parent w)
}.

(** ** The states a conversion goes through

    The engine is in the state [w] when the listener is called for [data];
    each definition below is the answer of one call, or the state it
    leaves, in the order the listener makes the calls. *)

Section Steps.
Context {W : Type} (api : ConversionApi W) (w : W) (data : Data).

(** The table listener, for a scan that returned [meta]. *)
Definition table_created (meta : TableMeta) : ModelElement * W :=
  api_createElement api "table"
    (table_attributes (headingRows meta) (headingColumns meta)) w.

Definition table_split (meta : TableMeta) : option SplitResult * W :=
  api_split api (table_created meta).1 (modelCursor data) (table_created meta).2.

Definition table_consumed (meta : TableMeta) (splitResult : SplitResult) : W :=
  (api_consume api (viewItem data)
     (api_insert api (table_created meta).1 (position splitResult)
        (table_split meta).2)).2.

Definition row_created (meta : TableMeta) (splitResult : SplitResult)
  : ModelElement * W :=
  api_createElement api "tableRow" ∅ (table_consumed meta splitResult).

Definition emptyCell_created (meta : TableMeta) (splitResult : SplitResult)
  : ModelElement * W :=
  api_createElement api "tableCell" ∅
    (api_insert api (row_created meta splitResult).1
       (createAt (table_created meta).1 (Some "end"))
       (row_created meta splitResult).2).

Definition table_populated (meta : TableMeta) (splitResult : SplitResult) : W :=
  if negb (Nat.eqb (length (rows meta)) 0) then
    List.fold_left
      (fun w row =>
         api_convertItem api row (createAt (table_created meta).1 (Some "end")) w)
      (rows meta) (table_consumed meta splitResult)
  else
    api_insert api (emptyCell_created meta splitResult).1
      (createAt (row_created meta splitResult).1 (Some "end"))
      (emptyCell_created meta splitResult).2.

(** The cell listener. *)
Definition cell_created : ModelElement * W :=
  api_createElement api "tableCell" ∅ w.

Definition cell_split : option SplitResult * W :=
  api_split api cell_created.1 (modelCursor data) cell_created.2.

Definition cell_consumed (splitResult : SplitResult) : W :=
  (api_consume api (viewItem data)
     (api_insert api cell_created.1 (position splitResult) cell_split.2)).2.

Definition cell_converted (splitResult : SplitResult) : W :=
  api_convertChildren api (viewItem data) (createAt cell_created.1 None)
    (cell_consumed splitResult).

Definition cell_finished (splitResult : SplitResult) : W :=
  if Nat.eqb (api_childCount api cell_created.1 (cell_converted splitResult)) 0
  then api_insertElement api "paragraph" (createAt cell_created.1 None)
         (cell_converted splitResult)
  else cell_converted splitResult.

End Steps.

(** The calls that insert a placeholder paragraph. *)
Definition is_paragraph_insert (c : ApiCall) : bool :=
  match c with
  | writer_insertElement name _ => bool_decide (name = "paragraph")
  | _ => false
  end.

Definition paragraph_inserts (cs : list ApiCall) : nat :=
  length (List.filter is_paragraph_insert cs).

(** The calls that put something into the model tree, and the calls that
    mark a view item as consumed. *)
Definition inserts (c : ApiCall) : bool :=
  match c with
  | writer_insert _ _ | writer_insertElement _ _ => true
  | _ => false
  end.

Definition consumes (c : ApiCall) : bool :=
  match c with
  | consumable_consume _ => true
  | _ => false
  end.

(** The calls that hand a view item to the dispatcher. *)
Definition dispatches (c : ApiCall) : bool :=
  match c with
  | convertItem _ _ | convertChildren _ _ => true
  | _ => false
  end.

(** ** What the scanner is compared with *)

Definition children_of (node : ViewNode) : list ViewNode :=
  match node with
  | ViewElement _ _ children => children
  | ViewText _ => []
  end.

Definition is_element (node : ViewNode) : bool :=
  match node with
  | ViewElement _ _ _ => true
  | ViewText _ => false
  end.

(** A child of the table that may hold rows. *)
Definition is_section (tableChild : ViewNode) : bool :=
  name_is tableChild "tbody" || name_is tableChild "thead"
  || name_is tableChild "tfoot".

(** The rows of a child of the table: its children, when it is a section. *)
Definition section_rows (tableChild : ViewNode) : list ViewNode :=
  if is_section tableChild then children_of tableChild else [].

(** The first [thead] among the children of a table. *)
Definition first_thead (tableChildren : list ViewNode) : option ViewNode :=
  List.find (fun c => name_is c "thead") tableChildren.

(** The children of a table but for the first [thead]. *)
Fixpoint without_first_thead (tableChildren : list ViewNode)
  : list ViewNode :=
  match tableChildren with
  | c :: rest =>
      if name_is c "thead" then rest else c :: without_first_thead rest
  | [] => []
  end.

(** The rows of the first [thead], in their order. *)
Definition first_thead_rows (tableChildren : list ViewNode) : list ViewNode :=
  from_option children_of [] (first_thead tableChildren).

(** All the other rows of the sections, in document order. *)
Definition other_rows (tableChildren : list ViewNode) : list ViewNode :=
  List.flat_map section_rows (without_first_thead tableChildren).

(** A cell-like child of a row. *)
Definition is_cell (child : ViewNode) : bool :=
  name_is child "th" || name_is child "td".

(** The longest prefix of [th] elements. *)
Fixpoint th_prefix (cells : list ViewNode) : list ViewNode :=
  match cells with
  | c :: rest => if name_is c "th" then c :: th_prefix rest else []
  | [] => []
  end.

(** The column span the scanner reads off a cell. *)
Definition colspan (th : ViewNode) : Js.number :=
  parseInt_or_1 (match th with
                 | ViewElement _ attrs _ => attrs !! "colspan"
                 | ViewText _ => None
                 end).

(** The sum of the spans of some cells, from [0] on. *)
Definition sum_of_spans (ths : list ViewNode) : Js.number :=
  List.fold_left Js.add (List.map colspan ths) (Js.Num 0).

(** The contribution of a row, when its scan returns a number. *)
Definition contributes (tr : ViewNode) (c : Z) : Prop :=
  scanRowForHeadingColumns tr = Js.Normal (Js.Num c).

(** The scan of the body rows for the widest run of heading columns, as the
    loop of [scanTable] does it: a row wins when its count is greater than
    the current one. *)
Fixpoint widest (bodyRows : list ViewNode) (current : Js.number)
  : Js.completion Js.number :=
  match bodyRows with
  | tr :: rest =>
      headingCols ← scanRowForHeadingColumns tr;
      widest rest (if Js.gt headingCols current then headingCols else current)
  | [] => Js.Normal current
  end.

(** A [colspan] is a positive integer when it is written with decimal
    digits only, not all of them [0]. *)
Definition is_decimal_digit (c : ascii) : bool :=
  let n := nat_of_ascii c in Nat.leb 48 n && Nat.leb n 57.

Fixpoint all_digits (s : string) : bool :=
  match s with
  | String c rest => is_decimal_digit c && all_digits rest
  | EmptyString => true
  end.

Fixpoint some_nonzero (s : string) : bool :=
  match s with
  | String c rest => negb (Ascii.eqb c "0") || some_nonzero rest
  | EmptyString => false
  end.

Definition positive_integer (s : string) : bool :=
  all_digits s && some_nonzero s.

(** The integer a string of decimal digits denotes ([acc] is the value of
    the digits already read). *)
Fixpoint decimal_value_from (acc : Z) (s : string) : Z :=
  match s with
  | String c rest =>
      decimal_value_from (acc * 10 + (Z.of_nat (nat_of_ascii c) - 48))%Z rest
  | EmptyString => acc
  end.

Definition decimal_value (s : string) : Z := decimal_value_from 0 s.

(** ** A small engine

    A model tree kept as an array of elements, the reference of an element
    being its index; a ledger of the consumed view items; a schema that
    decides where an element may go; a dispatcher that makes one element of
    each view node it is given. *)

Record RefElement : Type := {
  ref_name : string;
  ref_attributes : gmap string Js.number;
  ref_children : list ModelElement
}.

Record RefWorld : Type := {
  ref_tree : list RefElement;
  ref_ledger : list ViewNode
}.

Fixpoint view_eqb (a b : ViewNode) : bool :=
  match a, b with
  | ViewText x, ViewText y => bool_decide (x = y)
  | ViewElement n1 a1 c1, ViewElement n2 a2 c2 =>
      bool_decide (n1 = n2) && bool_decide (a1 = a2)
      && (fix all_eqb (l1 l2 : list ViewNode) : bool :=
            match l1, l2 with
            | [], [] => true
            | x :: l1', y :: l2' => view_eqb x y && all_eqb l1' l2'
            | _, _ => false
            end) c1 c2
  | _, _ => false
  end.

Definition ref_live (item : ModelElement) (w : RefWorld) : Prop :=
  item < length (ref_tree w).

Definition ref_childCount (item : ModelElement) (w : RefWorld) : nat :=
  from_option (fun e => length (ref_children e)) 0 (ref_tree w !! item).

Definition ref_test (item : ViewNode) (w : RefWorld) : bool :=
  negb (existsb (view_eqb item) (ref_ledger w)).

Definition ref_consume (item : ViewNode) (w : RefWorld) : bool * RefWorld :=
  (ref_test item w,
   {| ref_tree := ref_tree w; ref_ledger := item :: ref_ledger w |}).

Definition ref_createElement (name : string)
    (attributes : gmap string Js.number) (w : RefWorld)
  : ModelElement * RefWorld :=
  (length (ref_tree w),
   {| ref_tree :=
        ref_tree w ++ [{| ref_name := name; ref_attributes := attributes;
                          ref_children := [] |}];
      ref_ledger := ref_ledger w |}).

(** Put [item] among the children of [parent] ([place] says where); an
    element is never put inside itself. *)
Definition ref_adopt (parent item : ModelElement)
    (place : list ModelElement -> list ModelElement) (w : RefWorld)
  : RefWorld :=
  if bool_decide (parent = item) then w
  else
    {| ref_tree :=
         alter (fun e => {| ref_name := ref_name e;
                            ref_attributes := ref_attributes e;
                            ref_children := place (ref_children e) |})
               parent (ref_tree w);
       ref_ledger := ref_ledger w |}.

(** The index of the parent of [item], if it has one. *)
Definition ref_parent (item : ModelElement) (w : RefWorld) : option nat :=
  fst <$> list_find (fun e => item ∈ ref_children e) (ref_tree w).

Fixpoint place_beside (after : bool) (sibling item : ModelElement)
    (l : list ModelElement) : list ModelElement :=
  match l with
  | x :: rest =>
      if bool_decide (x = sibling)
      then (if after then x :: item :: rest else item :: x :: rest)
      else x :: place_beside after sibling item rest
  | [] => []
  end.

Definition ref_insert (item : ModelElement) (pos : ModelPosition)
    (w : RefWorld) : RefWorld :=
  match pos with
  | createAt parent (Some offset) =>
      if bool_decide (offset = "end")
      then ref_adopt parent item (fun l => l ++ [item]) w
      else w
  | createAt parent None => ref_adopt parent item (fun l => item :: l) w
  | createBefore sibling =>
      match ref_parent sibling w with
      | Some parent => ref_adopt parent item (place_beside false sibling item) w
      | None => w
      end
  | createAfter sibling =>
      match ref_parent sibling w with
      | Some parent => ref_adopt parent item (place_beside true sibling item) w
      | None => w
      end
  end.

Definition ref_insertElement (name : string) (pos : ModelPosition)
    (w : RefWorld) : RefWorld :=
  let '(item, w') := ref_createElement name ∅ w in
  ref_insert item pos w'.

Definition ref_convertItem (item : ViewNode) (cursor : ModelPosition)
    (w : RefWorld) : RefWorld :=
  ref_insertElement (default "$text" (node_name item)) cursor w.

Definition ref_convertChildren (item : ViewNode) (cursor : ModelPosition)
    (w : RefWorld) : RefWorld :=
  List.fold_left (fun w child => ref_convertItem child cursor w)
    (children_of item) w.

(** The engine, for a schema that answers [splitToAllowedParent]. *)
Definition ref_api
    (schema : ModelElement -> ModelPosition -> option SplitResult)
  : ConversionApi RefWorld :=
  {| api_test := ref_test;
     api_consume := ref_consume;
     api_createElement := ref_createElement;
     api_insert := ref_insert;
     api_insertElement := ref_insertElement;
     api_split := fun item cursor w => (schema item cursor, w);
     api_convertItem := ref_convertItem;
     api_convertChildren := ref_convertChildren;
     api_childCount := ref_childCount |}.

(** Three schemas: one that takes the element where the cursor is, one that
    splits the parent of the cursor and hands back the remainder [2], and
    one that has no place for the element. *)
Definition schema_placed : ModelElement -> ModelPosition -> option SplitResult :=
  fun _ cursor => Some {| position := cursor; cursorParent := None |}.
Definition schema_split : ModelElement -> ModelPosition -> option SplitResult :=
  fun _ _ => Some {| position := createAfter 1; cursorParent := Some 2 |}.
Definition schema_rejected : ModelElement -> ModelPosition -> option SplitResult :=
  fun _ _ => None.

(** A model with a root [0] holding a paragraph [1] and its remainder [2]. *)
Definition ref_start : RefWorld :=
  {| ref_tree :=
       [ {| ref_name := "$root"; ref_attributes := ∅; ref_children := [1; 2] |};
         {| ref_name := "paragraph"; ref_attributes := ∅; ref_children := [] |};
         {| ref_name := "paragraph"; ref_attributes := ∅; ref_children := [] |} ];
     ref_ledger := [] |}.

(** Tables and rows of the scenarios. *)
Definition el (name : string) (children : list ViewNode) : ViewNode :=
  ViewElement name ∅ children.
Definition th_colspan (v : string) : ViewNode :=
  ViewElement "th" {[ "colspan" := v ]} [].
Definition cell_row (data : string) : ViewNode :=
  el "tr" [el "td" [ViewText data]].

Definition scenario_A : ViewNode :=
  el "table" [el "tbody" [cell_row "2"]; el "thead" [cell_row "1"];
              el "tbody" [cell_row "3"]].

Definition scenario_B_row : ViewNode :=
  el "tr" [ViewElement "th" {[ "colspan" := "2" ]} [ViewText "A"];
           el "th" [ViewText "B"]; el "td" [ViewText "C"]].

Definition data_at_root (item : ViewNode) : Data :=
  {| viewItem := item; modelCursor := createAt 0 (Some "end");
     modelRange := None |}.

(** A body row led by a heading cell with the given [colspan], and the
    table made of that row alone. *)
Definition span_row (v : string) : ViewNode := el "tr" [th_colspan v].
Definition span_table (v : string) : ViewNode :=
  el "table" [el "tbody" [span_row v]].

(** The row of scenario B in a table of its own. *)
Definition scenario_B : ViewNode := el "table" [el "tbody" [scenario_B_row]].

(** A table with two [thead]s around a [tbody]; the second one holds a row
    led by a heading cell. *)
Definition two_theads : ViewNode :=
  el "table" [el "thead" [cell_row "1"]; el "tbody" [cell_row "2"];
              el "thead" [el "tr" [el "th" [ViewText "3"]]]].

(** ** Further definitions for the properties of the second half *)

(** The outcome of a call under a function of its value. *)
#[export] Instance completion_fmap : FMap Js.completion :=
  fun A B f m =>
    match m with
    | Js.Normal a => Js.Normal (f a)
    | Js.Throw e => Js.Throw e
    end.


(** A heading cell with a well-formed span: no [colspan], an empty one, or
    a positive integer written in decimal. *)
Definition well_formed_colspan (th : ViewNode) : bool :=
  match th with
  | ViewElement _ attrs _ =>
      match attrs !! "colspan" with
      | Some s => bool_decide (s = "") || positive_integer s
      | None => true
      end
  | ViewText _ => false
  end.

(** A heading cell without a [colspan] attribute. *)
Definition no_colspan (th : ViewNode) : bool :=
  match th with
  | ViewElement _ attrs _ => bool_decide (attrs !! "colspan" = None)
  | ViewText _ => false
  end.

(** The small engine with [item] already in the ledger. *)
Definition ref_consumed (item : ViewNode) : RefWorld :=
  {| ref_tree := ref_tree ref_start; ref_ledger := [item] |}.

(** A table with white space and a caption beside its sections, and a table
    with a text node where a body row should be. *)
Definition caption_table : ViewNode :=
  el "table" [ViewText " "; el "caption" [ViewText "t"];
              el "thead" [cell_row "1"]; ViewText " ";
              el "tbody" [cell_row "2"]].

Definition text_row_table : ViewNode :=
  el "table" [el "tbody" [ViewText "x"]].

(** How a stretch of the loop of [scanTable] relates the state it starts
    from to its outcome, when it meets the heading rows [heads] and the body
    rows [bodies]. *)
Definition scan_agrees (st : ScanState) (heads bodies : list ViewNode)
    (r : Js.completion ScanState) : Prop :=
  match r with
  | Js.Normal st' =>
      widest bodies (meta_headingColumns st)
      = Js.Normal (meta_headingColumns st')
      /\ meta_headingRows st'
         = Js.add (meta_headingRows st) (Js.Num (Z.of_nat (length heads)))
      /\ headRows st' = headRows st ++ heads
      /\ bodyRows st' = bodyRows st ++ bodies
      /\ (firstTheadElement st <> None ->
          firstTheadElement st' = firstTheadElement st)
  | Js.Throw e => widest bodies (meta_headingColumns st) = Js.Throw e
  end.

(* ===================================================================== *)
(** * Part II.  Lemmas and theorems                                        *)
(* ===================================================================== *)

Example scenario_A_scan :
  scanTable scenario_A =
  Js.Normal {| headingRows := Js.Num 1; headingColumns := Js.Num 0;
               rows := [cell_row "1"; cell_row "2"; cell_row "3"] |}.
Proof. vm_compute. reflexivity. Qed.

Example scenario_B_scan :
  scanRowForHeadingColumns scenario_B_row = Js.Normal (Js.Num 3).
Proof. vm_compute. reflexivity. Qed.

Example parseInt_examples :
  Js.parseInt " 12px" = Js.Num 12 /\ Js.parseInt "-3" = Js.Num (-3) /\
  Js.parseInt "0x1F" = Js.Num 31 /\ Js.parseInt "abc" = Js.NaN /\
  Js.parseInt "0" = Js.Num 0 /\ Js.parseInt "" = Js.NaN /\
  Js.parseInt "2.5" = Js.Num 2 /\ Js.parseInt "0x" = Js.NaN.
Proof. vm_compute. repeat split. Qed.


(** ** Numbers *)

Lemma add_zero_r (a : Js.number) : Js.add a (Js.Num 0) = a.
Proof. destruct a as [|z]; simpl; [reflexivity|]. f_equal. lia. Qed.

Lemma add_assoc_num (a : Js.number) (x y : Z) :
  Js.add (Js.add a (Js.Num x)) (Js.Num y) = Js.add a (Js.Num (x + y)).
Proof. destruct a as [|z]; simpl; [reflexivity|]. f_equal. lia. Qed.

(** ** The scan of a row *)

Lemma name_is_element (node : ViewNode) (s : string) :
  name_is node s = true -> is_element node = true.
Proof.
  destruct node as [d|n a cs]; [|reflexivity].
  unfold name_is. intros H. apply bool_decide_eq_true in H. discriminate.
Qed.

Lemma getAttribute_colspan (th : ViewNode) :
  is_element th = true ->
  (a ← getAttribute th "colspan"; Js.Normal (parseInt_or_1 a))
  = Js.Normal (colspan th).
Proof. destruct th; [discriminate|reflexivity]. Qed.

Lemma count_heading_columns_prefix (cells : list ViewNode) (acc : Js.number) :
  count_heading_columns cells acc
  = Js.Normal (List.fold_left Js.add (List.map colspan (th_prefix cells)) acc).
Proof.
  revert acc. induction cells as [|c rest IH]; intros acc; simpl.
  - reflexivity.
  - destruct (name_is c "th") eqn:Hth; simpl; [|reflexivity].
    apply name_is_element in Hth. destruct c as [d|n a cs]; [discriminate|].
    simpl. apply IH.
Qed.

Lemma scanRow_element (name : string) (attrs : gmap string string)
    (children : list ViewNode) :
  scanRowForHeadingColumns (ViewElement name attrs children)
  = Js.Normal (sum_of_spans (th_prefix (List.filter is_cell children))).
Proof. unfold scanRowForHeadingColumns. simpl. apply count_heading_columns_prefix. Qed.

Lemma scanRow_normal_iff (tr : ViewNode) :
  is_element tr = true <-> exists v, scanRowForHeadingColumns tr = Js.Normal v.
Proof.
  destruct tr as [d|n a cs]; simpl; split.
  - discriminate.
  - intros [v H]. discriminate.
  - intros _. eexists. apply scanRow_element.
  - reflexivity.
Qed.

(** ** The widest run of heading columns *)

Lemma widest_app (xs ys : list ViewNode) (current : Js.number) :
  widest (xs ++ ys) current = (c ← widest xs current; widest ys c).
Proof.
  revert current. induction xs as [|x xs IH]; intros current; simpl.
  - reflexivity.
  - destruct (scanRowForHeadingColumns x) as [v|e]; simpl; [apply IH|reflexivity].
Qed.

Lemma widest_normal_iff (trs : list ViewNode) (current : Js.number) :
  forallb is_element trs = true <-> exists v, widest trs current = Js.Normal v.
Proof.
  revert current. induction trs as [|tr trs IH]; intros current; simpl.
  - split; eauto.
  - rewrite andb_true_iff. destruct tr as [d|n a cs].
    + simpl. split; [intros [? _]; discriminate|intros [v H]; discriminate].
    + rewrite scanRow_element. simpl. split.
      * intros [_ H]. apply IH, H.
      * intros H. split; [reflexivity|]. eapply IH, H.
Qed.

Lemma widest_maximum (trs : list ViewNode) (z0 : Z) (v : Js.number) :
  widest trs (Js.Num z0) = Js.Normal v ->
  exists z, v = Js.Num z /\ (z0 <= z)%Z
    /\ (forall tr c, In tr trs -> contributes tr c -> (c <= z)%Z)
    /\ (z = z0 \/ exists tr, In tr trs /\ contributes tr z).
Proof.
  revert z0. induction trs as [|tr trs IH]; intros z0; simpl.
  - intros [= <-]. exists z0. repeat split; [lia|tauto|tauto].
  - destruct (scanRowForHeadingColumns tr) as [[|c0]|e] eqn:Hrow; simpl;
      [| |discriminate].
    + intros H. destruct (IH _ H) as (z & -> & Hle & Hub & Hatt).
      exists z. repeat split; [exact Hle| |].
      * intros tr' c [<-|Hin] Hc; [unfold contributes in Hc; congruence|eauto].
      * destruct Hatt as [->|(tr' & Hin & Hc)]; [tauto|right; eauto].
    + destruct (c0 >? z0)%Z eqn:Hcmp; unfold Js.gt;
        rewrite Z.gtb_ltb in Hcmp; rewrite Hcmp; intros H;
        destruct (IH _ H) as (z & -> & Hle & Hub & Hatt);
        exists z.
      * apply Z.ltb_lt in Hcmp. repeat split; [lia| |].
        -- intros tr' c [<-|Hin] Hc; [|eauto].
           unfold contributes in Hc. rewrite Hrow in Hc. injection Hc as <-. lia.
        -- right. destruct Hatt as [->|(tr' & Hin & Hc)]; [exists tr; split; [tauto|exact Hrow]|eauto].
      * apply Z.ltb_ge in Hcmp. repeat split; [lia| |].
        -- intros tr' c [<-|Hin] Hc; [|eauto].
           unfold contributes in Hc. rewrite Hrow in Hc. injection Hc as <-. lia.
        -- destruct Hatt as [->|(tr' & Hin & Hc)]; [tauto|right; eauto].
Qed.

(** ** The loops of [scanTable] *)

Lemma scan_agrees_bind (st : ScanState) (h1 b1 h2 b2 : list ViewNode)
    (r : Js.completion ScanState) (k : ScanState -> Js.completion ScanState) :
  scan_agrees st h1 b1 r ->
  (forall st1, r = Js.Normal st1 -> scan_agrees st1 h2 b2 (k st1)) ->
  scan_agrees st (h1 ++ h2) (b1 ++ b2) (r ≫= k).
Proof.
  intros H1 H2. destruct r as [st1|e]; simpl in *.
  - specialize (H2 st1 eq_refl).
    destruct H1 as (Hw & Hr & Hh & Hb & Hf).
    destruct (k st1) as [st2|e]; simpl in *.
    + destruct H2 as (Hw2 & Hr2 & Hh2 & Hb2 & Hf2).
      rewrite widest_app, Hw. simpl. repeat split.
      * exact Hw2.
      * rewrite Hr2, Hr, add_assoc_num, length_app, Nat2Z.inj_add. reflexivity.
      * rewrite Hh2, Hh, app_assoc. reflexivity.
      * rewrite Hb2, Hb, app_assoc. reflexivity.
      * intros Hne. rewrite Hf2; rewrite Hf; auto.
    + rewrite widest_app, Hw. exact H2.
  - rewrite widest_app, H1. reflexivity.
Qed.

Lemma scan_agrees_bind_head (st : ScanState) (heads bodies : list ViewNode)
    (r : Js.completion ScanState) (k : ScanState -> Js.completion ScanState) :
  scan_agrees st heads [] r ->
  (forall st1, r = Js.Normal st1 -> scan_agrees st1 [] bodies (k st1)) ->
  scan_agrees st heads bodies (r ≫= k).
Proof.
  intros H1 H2. rewrite <- (app_nil_r heads).
  change bodies with ([] ++ bodies). apply scan_agrees_bind; assumption.
Qed.

Lemma scan_agrees_nil (st : ScanState) :
  scan_agrees st [] [] (Js.Normal st).
Proof.
  simpl. rewrite add_zero_r, !app_nil_r. repeat split; reflexivity.
Qed.

Lemma scan_tr_head (tableChild : ViewNode) (index : nat) (st : ScanState)
    (tr : ViewNode) :
  name_is tableChild "thead" = true ->
  firstTheadElement st = Some index ->
  scan_agrees st [tr] [] (scan_tr tableChild index st tr).
Proof.
  intros Hname Hfirst. unfold scan_tr. rewrite Hname, Hfirst.
  rewrite bool_decide_eq_true_2 by reflexivity. simpl.
  rewrite app_nil_r. repeat split; try reflexivity. intros _. symmetry. exact Hfirst.
Qed.

Lemma scan_tr_body (tableChild : ViewNode) (index : nat) (st : ScanState)
    (tr : ViewNode) :
  name_is tableChild "thead" && bool_decide (firstTheadElement st = Some index)
  = false ->
  scan_agrees st [] [tr] (scan_tr tableChild index st tr).
Proof.
  intros Hcond. unfold scan_tr. rewrite Hcond.
  destruct (scanRowForHeadingColumns tr) as [v|e] eqn:Hrow; simpl; rewrite Hrow; simpl.
  - rewrite add_zero_r, app_nil_r. repeat split; reflexivity.
  - reflexivity.
Qed.

Lemma for_of_head (tableChild : ViewNode) (index : nat) (trs : list ViewNode) :
  name_is tableChild "thead" = true ->
  forall st, firstTheadElement st = Some index ->
  scan_agrees st trs [] (for_of trs (scan_tr tableChild index) st).
Proof.
  intros Hname. induction trs as [|tr trs IH]; intros st Hfirst; simpl.
  - apply scan_agrees_nil.
  - change (tr :: trs) with ([tr] ++ trs).
    change (@nil ViewNode) with (@nil ViewNode ++ []).
    apply scan_agrees_bind; [apply scan_tr_head; assumption|].
    intros st1 Hst1. apply IH.
    pose proof (scan_tr_head tableChild index st tr Hname Hfirst) as H.
    rewrite Hst1 in H. destruct H as (_ & _ & _ & _ & Hf).
    rewrite Hf; [exact Hfirst|congruence].
Qed.

Lemma for_of_body (tableChild : ViewNode) (index : nat) (trs : list ViewNode) :
  forall st,
  name_is tableChild "thead" && bool_decide (firstTheadElement st = Some index)
  = false ->
  firstTheadElement st <> None \/ name_is tableChild "thead" = false ->
  scan_agrees st [] trs (for_of trs (scan_tr tableChild index) st).
Proof.
  induction trs as [|tr trs IH]; intros st Hcond Hkeep; simpl.
  - apply scan_agrees_nil.
  - change (tr :: trs) with ([tr] ++ trs).
    change (@nil ViewNode) with (@nil ViewNode ++ []).
    apply scan_agrees_bind; [apply scan_tr_body; assumption|].
    intros st1 Hst1.
    pose proof (scan_tr_body tableChild index st tr Hcond) as H.
    rewrite Hst1 in H. destruct H as (_ & _ & _ & _ & Hf).
    destruct Hkeep as [Hne|Hname].
    + apply IH; [rewrite Hf by exact Hne; exact Hcond|left; rewrite Hf; auto].
    + apply IH; [rewrite Hname; reflexivity|right; exact Hname].
Qed.

Lemma section_getChildren (tableChild : ViewNode) :
  is_section tableChild = true ->
  getChildren tableChild = Js.Normal (children_of tableChild).
Proof.
  destruct tableChild as [d|n a cs]; [|reflexivity].
  unfold is_section, name_is. simpl. discriminate.
Qed.

Lemma thead_is_section (tableChild : ViewNode) :
  name_is tableChild "thead" = true -> is_section tableChild = true.
Proof. unfold is_section. intros ->. rewrite orb_true_r. reflexivity. Qed.

(** Once the first [thead] is behind, every row of a section is a body
    row. *)
Lemma scan_tableChild_after_thead (tableChild : ViewNode) (index : nat)
    (st : ScanState) (first : nat) :
  firstTheadElement st = Some first -> first < index ->
  scan_agrees st [] (section_rows tableChild)
    (scan_tableChild index st tableChild).
Proof.
  intros Hfirst Hlt. unfold scan_tableChild, section_rows.
  fold (is_section tableChild).
  destruct (is_section tableChild) eqn:Hsec; [|apply scan_agrees_nil].
  rewrite Hfirst.
  rewrite (bool_decide_eq_false_2 (Some first = None)) by discriminate.
  rewrite andb_false_r, (section_getChildren _ Hsec). simpl.
  apply for_of_body.
  - rewrite Hfirst, bool_decide_eq_false_2, andb_false_r; [reflexivity|].
    intros [= ->]. lia.
  - left. congruence.
Qed.

Lemma scan_after_thead (tableChildren : list ViewNode) :
  forall index st first,
  firstTheadElement st = Some first -> first < index ->
  scan_agrees st [] (List.flat_map section_rows tableChildren)
    (scan_tableChildren tableChildren index st).
Proof.
  induction tableChildren as [|c rest IH]; intros index st first Hfirst Hlt; simpl.
  - apply scan_agrees_nil.
  - change (@nil ViewNode) with (@nil ViewNode ++ []).
    pose proof (scan_tableChild_after_thead c index st first Hfirst Hlt) as Hstep.
    apply scan_agrees_bind; [exact Hstep|].
    intros st1 Hst1. apply (IH (S index) st1 first); [|lia].
    rewrite Hst1 in Hstep. destruct Hstep as (_ & _ & _ & _ & Hkeep).
    rewrite Hkeep; [exact Hfirst|congruence].
Qed.

Lemma for_of_keeps_first (tableChild : ViewNode) (index : nat)
    (trs : list ViewNode) :
  forall st st',
  for_of trs (scan_tr tableChild index) st = Js.Normal st' ->
  firstTheadElement st' = firstTheadElement st.
Proof.
  induction trs as [|tr trs IH]; intros st st'; simpl.
  - intros [= <-]. reflexivity.
  - destruct (scan_tr tableChild index st tr) as [st1|e] eqn:Hstep; simpl;
      [|discriminate].
    intros H. rewrite (IH _ _ H). unfold scan_tr in Hstep.
    destruct (name_is tableChild "thead"
              && bool_decide (firstTheadElement st = Some index)).
    + injection Hstep as <-. reflexivity.
    + destruct (scanRowForHeadingColumns tr); simpl in Hstep; [|discriminate].
      injection Hstep as <-. reflexivity.
Qed.

Lemma scan_agrees_set_first (st : ScanState) (index : nat)
    (heads bodies : list ViewNode) (r : Js.completion ScanState) :
  firstTheadElement st = None ->
  scan_agrees
    {| meta_headingRows := meta_headingRows st;
       meta_headingColumns := meta_headingColumns st;
       headRows := headRows st; bodyRows := bodyRows st;
       firstTheadElement := Some index |} heads bodies r ->
  scan_agrees st heads bodies r.
Proof.
  intros Hnone. destruct r as [st'|e]; simpl; [|tauto].
  intros (Hw & Hr & Hh & Hb & _). repeat split; try assumption.
  intros Hne. contradiction.
Qed.

(** Up to the first [thead]: its rows are the heading rows, the rows of the
    other sections are body rows. *)
Lemma scan_before_thead (tableChildren : list ViewNode) :
  forall index st,
  firstTheadElement st = None ->
  scan_agrees st (first_thead_rows tableChildren) (other_rows tableChildren)
    (scan_tableChildren tableChildren index st).
Proof.
  induction tableChildren as [|c rest IH]; intros index st Hnone; simpl.
  - apply scan_agrees_nil.
  - unfold first_thead_rows, other_rows, first_thead. simpl.
    unfold scan_tableChild. fold (is_section c).
    destruct (name_is c "thead") eqn:Hthead.
    + rewrite (thead_is_section _ Hthead), Hnone.
      rewrite bool_decide_eq_true_2 by reflexivity. simpl.
      rewrite (section_getChildren _ (thead_is_section _ Hthead)). simpl.
      apply scan_agrees_bind_head.
      * apply (scan_agrees_set_first st index); [exact Hnone|].
        apply for_of_head; [exact Hthead|reflexivity].
      * intros st1 Hst1. apply (scan_after_thead rest (S index) st1 index); [|lia].
        rewrite (for_of_keeps_first _ _ _ _ _ Hst1). reflexivity.
    + change (from_option children_of [] (List.find (fun c0 => name_is c0 "thead") rest))
        with ([] ++ first_thead_rows rest).
      change (List.flat_map section_rows (without_first_thead rest))
        with (other_rows rest).
      apply scan_agrees_bind.
      * unfold section_rows. destruct (is_section c) eqn:Hsec; [|apply scan_agrees_nil].
        simpl. rewrite (section_getChildren _ Hsec). simpl.
        apply for_of_body; [rewrite Hthead; reflexivity|right; exact Hthead].
      * intros st1 Hst1. apply IH. rewrite <- Hnone.
        destruct (is_section c) eqn:Hsec; [|congruence].
        simpl in Hst1. rewrite (section_getChildren _ Hsec) in Hst1. simpl in Hst1.
        apply (for_of_keeps_first _ _ _ _ _ Hst1).
Qed.

(** The scanner as a function of the children of the table. *)
Lemma scanTable_spec (name : string) (attrs : gmap string string)
    (tableChildren : list ViewNode) :
  scanTable (ViewElement name attrs tableChildren)
  = (hc ← widest (other_rows tableChildren) (Js.Num 0);
     Js.Normal
       {| headingRows :=
            Js.Num (Z.of_nat (length (first_thead_rows tableChildren)));
          headingColumns := hc;
          rows := first_thead_rows tableChildren ++ other_rows tableChildren |}).
Proof.
  unfold scanTable. simpl.
  pose proof (scan_before_thead tableChildren 0
    {| meta_headingRows := Js.Num 0; meta_headingColumns := Js.Num 0;
       headRows := []; bodyRows := []; firstTheadElement := None |} eq_refl) as H.
  destruct (scan_tableChildren tableChildren 0 _) as [st|e]; simpl in H |- *.
  - destruct H as (-> & -> & -> & -> & _). reflexivity.
  - rewrite H. reflexivity.
Qed.

Lemma scanTable_text (data : string) :
  scanTable (ViewText data)
  = Js.Throw (Js.TypeError "getChildren is not a function").
Proof. reflexivity. Qed.

(** ** [parseInt] on integers written in decimal *)

Lemma digit_code (c : ascii) :
  is_decimal_digit c = true -> 48 <= nat_of_ascii c <= 57.
Proof.
  unfold is_decimal_digit. cbv zeta. rewrite andb_true_iff, !Nat.leb_le. tauto.
Qed.

Lemma eqb_code_neq (c d : ascii) (n : nat) :
  nat_of_ascii d = n -> nat_of_ascii c <> n -> Ascii.eqb c d = false.
Proof. intros <- H. apply Ascii.eqb_neq. intros ->. apply H. reflexivity. Qed.

Lemma digit_not_white_space (c : ascii) :
  is_decimal_digit c = true -> Js.is_white_space c = false.
Proof.
  intros H. apply digit_code in H. unfold Js.is_white_space. cbv zeta.
  rewrite !orb_false_iff, andb_false_iff, !Nat.leb_gt, !Nat.eqb_neq. lia.
Qed.

Lemma digit_value_decimal (c : ascii) :
  is_decimal_digit c = true ->
  Js.digit_value 10 c = Some (Z.of_nat (nat_of_ascii c) - 48)%Z.
Proof.
  intros H. apply digit_code in H. unfold Js.digit_value. cbv zeta.
  replace ((48 <=? Z.of_nat (nat_of_ascii c))%Z) with true
    by (symmetry; apply Z.leb_le; lia).
  replace ((Z.of_nat (nat_of_ascii c) <=? 57)%Z) with true
    by (symmetry; apply Z.leb_le; lia).
  simpl. replace ((Z.of_nat (nat_of_ascii c) - 48 <? 10)%Z) with true
    by (symmetry; apply Z.ltb_lt; lia).
  reflexivity.
Qed.

Lemma parse_digits_decimal (s : string) :
  all_digits s = true ->
  forall a, (0 <= a)%Z ->
  Js.parse_digits 10 s (Some a) = Some (decimal_value_from a s)
  /\ (a <= decimal_value_from a s)%Z
  /\ (some_nonzero s = true -> 0 < decimal_value_from a s)%Z.
Proof.
  induction s as [|c rest IH]; simpl; intros Hall a Ha.
  - repeat split; [lia|discriminate].
  - apply andb_true_iff in Hall as [Hc Hrest].
    rewrite (digit_value_decimal _ Hc). simpl.
    pose proof (digit_code _ Hc) as Hcode.
    destruct (IH Hrest (a * 10 + (Z.of_nat (nat_of_ascii c) - 48))%Z)
      as (Hv & Hle & Hpos); [lia|].
    repeat split; [exact Hv|lia|].
    rewrite orb_true_iff, negb_true_iff. intros [Hnz|Hnz]; [|auto].
    apply Ascii.eqb_neq in Hnz.
    assert (nat_of_ascii c <> 48).
    { intros Heq. apply Hnz. rewrite <- (ascii_nat_embedding c), Heq. reflexivity. }
    lia.
Qed.

Lemma positive_integer_shape (s : string) :
  positive_integer s = true ->
  exists c rest, s = String c rest /\ is_decimal_digit c = true
    /\ all_digits rest = true
    /\ (Ascii.eqb c "0" = true -> some_nonzero rest = true).
Proof.
  unfold positive_integer. rewrite andb_true_iff. intros [Hall Hnz].
  destruct s as [|c rest]; [discriminate|]. simpl in *.
  apply andb_true_iff in Hall as [Hc Hrest]. exists c, rest.
  repeat split; try assumption. intros H0. rewrite H0 in Hnz. exact Hnz.
Qed.

Lemma strip_sign_digit (c : ascii) (rest : string) :
  is_decimal_digit c = true ->
  Js.strip_sign (String c rest) = (1%Z, String c rest).
Proof.
  intros H. apply digit_code in H. unfold Js.strip_sign.
  rewrite (eqb_code_neq c "-" 45), (eqb_code_neq c "+" 43);
    [reflexivity|..]; try reflexivity; lia.
Qed.

Lemma strip_prefix_digits (c : ascii) (rest : string) :
  all_digits rest = true ->
  Js.strip_prefix (String c rest) = (10%Z, String c rest).
Proof.
  intros H. unfold Js.strip_prefix. destruct rest as [|x rest]; [reflexivity|].
  simpl in H. apply andb_true_iff in H as [Hx _]. apply digit_code in Hx.
  rewrite (eqb_code_neq x "x" 120), (eqb_code_neq x "X" 88), andb_false_r;
    [reflexivity|..]; try reflexivity; lia.
Qed.

Lemma parse_decimal_positive (s : string) :
  positive_integer s = true ->
  (0 < decimal_value s)%Z
  /\ Js.parse_digits 10 s None = Some (decimal_value s).
Proof.
  intros H. destruct (positive_integer_shape s H) as (c & rest & -> & Hc & Hrest & Hzero).
  unfold decimal_value. simpl. rewrite (digit_value_decimal _ Hc). simpl.
  pose proof (digit_code _ Hc) as Hcode.
  destruct (parse_digits_decimal rest Hrest (Z.of_nat (nat_of_ascii c) - 48)%Z)
    as (Hv & Hle & Hpos); [lia|].
  split; [|exact Hv].
  change (0 < decimal_value_from (Z.of_nat (nat_of_ascii c) - 48) rest)%Z.
  destruct (Ascii.eqb c "0") eqn:Hc0; [auto|].
  apply Ascii.eqb_neq in Hc0.
  assert (nat_of_ascii c <> 48).
  { intros Heq. apply Hc0. rewrite <- (ascii_nat_embedding c), Heq. reflexivity. }
  lia.
Qed.

Lemma parseInt_positive (s : string) :
  positive_integer s = true ->
  (0 < decimal_value s)%Z
  /\ Js.parseInt s = Js.Num (decimal_value s)
  /\ Js.parseInt (String "-" s) = Js.Num (- decimal_value s).
Proof.
  intros H. destruct (parse_decimal_positive s H) as (Hpos & Hv).
  split; [exact Hpos|]. revert Hv. generalize (decimal_value s) as v. intros v Hv.
  destruct (positive_integer_shape s H) as (c & rest & -> & Hc & Hrest & _).
  unfold Js.parseInt. split.
  - simpl Js.trim_start. rewrite (digit_not_white_space _ Hc).
    rewrite (strip_sign_digit _ _ Hc), (strip_prefix_digits _ _ Hrest), Hv.
    f_equal; lia.
  - simpl Js.trim_start. change (Js.strip_sign (String "-" (String c rest)))
      with ((-1)%Z, String c rest).
    cbv iota beta. rewrite (strip_prefix_digits _ _ Hrest), Hv. f_equal; lia.
Qed.

(** ** Properties of the scanner *)

Lemma first_thead_app (before : list ViewNode) (thead : ViewNode)
    (after : list ViewNode) :
  first_thead before = None -> name_is thead "thead" = true ->
  first_thead (before ++ thead :: after) = Some thead
  /\ without_first_thead (before ++ thead :: after) = before ++ after.
Proof.
  intros Hnone Hthead. unfold first_thead in *.
  induction before as [|c before IH]; simpl in *.
  - rewrite Hthead. split; reflexivity.
  - destruct (name_is c "thead"); [discriminate|].
    destruct (IH Hnone) as [-> ->]. split; reflexivity.
Qed.

Lemma thead_rows (thead : ViewNode) :
  name_is thead "thead" = true -> section_rows thead = children_of thead.
Proof. intros H. unfold section_rows. rewrite (thead_is_section _ H). reflexivity. Qed.

Lemma scanTable_element (viewTable : ViewNode) (meta : TableMeta) :
  scanTable viewTable = Js.Normal meta ->
  exists hc,
    widest (other_rows (children_of viewTable)) (Js.Num 0) = Js.Normal hc
    /\ meta =
       {| headingRows :=
            Js.Num (Z.of_nat (length (first_thead_rows (children_of viewTable))));
          headingColumns := hc;
          rows := first_thead_rows (children_of viewTable)
                  ++ other_rows (children_of viewTable) |}.
Proof.
  destruct viewTable as [d|n a cs]; [discriminate|].
  rewrite scanTable_spec. simpl.
  destruct (widest (other_rows cs) (Js.Num 0)) as [hc|e]; simpl; [|discriminate].
  intros [= <-]. exists hc. split; reflexivity.
Qed.

(** C1.  For every view table, the rows the scanner returns are the rows of
    the first [thead] among the children of the table, in their order,
    followed by all the other rows of the [thead], [tbody] and [tfoot]
    children in document order, however the sections are interleaved or
    repeated; and the scanner does return when the table is an element and
    these other rows are elements. *)
Theorem C1_rows_first_thead_then_document_order :
  forall viewTable : ViewNode,
    (forall meta, scanTable viewTable = Js.Normal meta ->
       rows meta = first_thead_rows (children_of viewTable)
                   ++ other_rows (children_of viewTable))
    /\ (is_element viewTable = true ->
        forallb is_element (other_rows (children_of viewTable)) = true ->
        exists meta, scanTable viewTable = Js.Normal meta).
Proof.
  intros viewTable. split.
  - intros meta H. destruct (scanTable_element _ _ H) as (hc & _ & ->). reflexivity.
  - destruct viewTable as [d|n a cs]; [discriminate|]. intros _ Hrows.
    rewrite scanTable_spec. simpl in Hrows.
    apply (widest_normal_iff _ (Js.Num 0)) in Hrows as [hc ->].
    simpl. eexists. reflexivity.
Qed.

Lemma C1_witness :
  exists meta, scanTable scenario_A = Js.Normal meta
    /\ rows meta = [cell_row "1"; cell_row "2"; cell_row "3"].
Proof.
  destruct (C1_rows_first_thead_then_document_order scenario_A) as [Hrows Hret].
  destruct (Hret eq_refl eq_refl) as [meta Hmeta].
  exists meta. split; [exact Hmeta|]. rewrite (Hrows meta Hmeta). reflexivity.
Defined.

(** C2, amended.  The scan of a row returns the sum of the column spans, as
    the scanner reads them, of the longest prefix of [th] elements among the
    [th] and [td] children of the row; the scan stops at the first cell that
    is not a [th], and a row whose first cell is not a [th] contributes 0.
    The [headingColumns] of the table is the greatest of 0 and the numeric
    contributions of the body rows: a number that is not negative, that no
    numeric contribution of a body row exceeds, and that is 0 or the
    contribution of a body row. *)
Theorem C2_heading_columns :
  (forall name attrs children,
     scanRowForHeadingColumns (ViewElement name attrs children)
     = Js.Normal (sum_of_spans (th_prefix (List.filter is_cell children))))
  /\ (forall name attrs children cell cells,
        List.filter is_cell children = cell :: cells ->
        name_is cell "th" = false ->
        scanRowForHeadingColumns (ViewElement name attrs children)
        = Js.Normal (Js.Num 0))
  /\ (forall viewTable meta,
        scanTable viewTable = Js.Normal meta ->
        exists z, headingColumns meta = Js.Num z /\ (0 <= z)%Z
          /\ (forall tr c, In tr (other_rows (children_of viewTable)) ->
                contributes tr c -> (c <= z)%Z)
          /\ (z = 0%Z
              \/ exists tr, In tr (other_rows (children_of viewTable))
                   /\ contributes tr z)).
Proof.
  split; [exact scanRow_element|]. split.
  - intros name attrs children cell cells Hcells Hcell.
    rewrite scanRow_element, Hcells. simpl. rewrite Hcell. reflexivity.
  - intros viewTable meta H.
    destruct (scanTable_element _ _ H) as (hc & Hw & ->).
    destruct (widest_maximum _ _ _ Hw) as (z & -> & Hle & Hub & Hatt).
    exists z. simpl. repeat split; assumption.
Qed.

Lemma C2_witness :
  scanRowForHeadingColumns (el "tr" [ViewText " "; el "td" []; el "th" []])
  = Js.Normal (Js.Num 0)
  /\ exists z, Js.Num 3 = Js.Num z /\ (0 <= z)%Z
       /\ (forall tr c, In tr (other_rows (children_of scenario_B)) ->
             contributes tr c -> (c <= z)%Z)
       /\ (z = 0%Z
           \/ exists tr, In tr (other_rows (children_of scenario_B))
                /\ contributes tr z).
Proof.
  destruct C2_heading_columns as (_ & Hfirst & Hmax). split.
  - apply (Hfirst _ _ _ (el "td" []) [el "th" []]); reflexivity.
  - apply (Hmax scenario_B
             {| headingRows := Js.Num 0; headingColumns := Js.Num 3;
                rows := [scenario_B_row] |}).
    vm_compute. reflexivity.
Defined.

(** C2 as stated fails: in a table whose only body row is led by a heading
    cell with [colspan="-1"], that row contributes [-1], and the
    [headingColumns] of the table is [0], which no body row contributes. *)
Lemma C2_counterexample :
  other_rows (children_of (span_table "-1")) = [span_row "-1"]
  /\ scanRowForHeadingColumns (span_row "-1") = Js.Normal (Js.Num (-1))
  /\ scanTable (span_table "-1")
     = Js.Normal {| headingRows := Js.Num 0; headingColumns := Js.Num 0;
                    rows := [span_row "-1"] |}
  /\ ~ (exists tr, In tr (other_rows (children_of (span_table "-1")))
          /\ scanRowForHeadingColumns tr = Js.Normal (Js.Num 0)).
Proof.
  assert (scanRowForHeadingColumns (span_row "-1") = Js.Normal (Js.Num (-1)))
    as Hrow by (vm_compute; reflexivity).
  split; [reflexivity|]. split; [exact Hrow|].
  split; [vm_compute; reflexivity|].
  intros (tr & [<-|[]] & Htr). rewrite Hrow in Htr. discriminate.
Qed.

Lemma parseInt_no_digit (c : ascii) (rest : string) :
  Js.is_white_space c = false ->
  Ascii.eqb c "-" = false -> Ascii.eqb c "+" = false ->
  Js.digit_value 10 c = None ->
  Js.parseInt (String c rest) = Js.NaN.
Proof.
  intros Hws Hminus Hplus Hdigit. unfold Js.parseInt. simpl Js.trim_start.
  rewrite Hws. unfold Js.strip_sign. rewrite Hminus, Hplus.
  assert (Ascii.eqb c "0" = false) as Hzero.
  { destruct (Ascii.eqb c "0") eqn:H0; [|reflexivity].
    apply Ascii.eqb_eq in H0. subst c. discriminate. }
  unfold Js.strip_prefix. rewrite Hzero. simpl.
  destruct rest; simpl; rewrite Hdigit; reflexivity.
Qed.

(** C3, amended.  For every [th] the scan counts, a [colspan] that is missing
    or empty counts as 1; any other [colspan] counts as [parseInt] reads it:
    a positive integer written in decimal and not above 2^53 (the range in
    which a double holds every integer) as itself, but ["0"] as 0, such an
    integer after a minus sign as the negative number, and a string whose
    first character is an ASCII character that is no digit, sign or white
    space as [NaN].  The scan of a row that is an element never throws. *)
Theorem C3_colspan_as_parsed :
  (forall th rest acc,
     name_is th "th" = true ->
     getAttribute th "colspan" = Js.Normal None
     \/ getAttribute th "colspan" = Js.Normal (Some "") ->
     count_heading_columns (th :: rest) acc
     = count_heading_columns rest (Js.add acc (Js.Num 1)))
  /\ (forall th rest acc s,
        name_is th "th" = true ->
        getAttribute th "colspan" = Js.Normal (Some s) -> s <> "" ->
        count_heading_columns (th :: rest) acc
        = count_heading_columns rest (Js.add acc (Js.parseInt s)))
  /\ (forall s, positive_integer s = true ->
        (decimal_value s <= 2 ^ 53)%Z ->
        (0 < decimal_value s)%Z
        /\ Js.parseInt s = Js.Num (decimal_value s)
        /\ Js.parseInt (String "-" s) = Js.Num (- decimal_value s))
  /\ Js.parseInt "0" = Js.Num 0
  /\ (forall c rest,
        nat_of_ascii c < 128 ->
        Js.is_white_space c = false ->
        Ascii.eqb c "-" = false -> Ascii.eqb c "+" = false ->
        Js.digit_value 10 c = None ->
        Js.parseInt (String c rest) = Js.NaN)
  /\ (forall name attrs children,
        exists v, scanRowForHeadingColumns (ViewElement name attrs children)
                  = Js.Normal v).
Proof.
  split; [|split; [|split; [|split; [|split]]]].
  - intros th rest acc Hth Hattr. simpl. rewrite Hth.
    destruct Hattr as [-> | ->]; reflexivity.
  - intros th rest acc s Hth Hattr Hs. simpl. rewrite Hth, Hattr. simpl.
    rewrite bool_decide_eq_false_2 by exact Hs. reflexivity.
  - intros s Hpositive _. exact (parseInt_positive s Hpositive).
  - reflexivity.
  - intros c rest _. apply parseInt_no_digit.
  - intros name attrs children. eexists. apply scanRow_element.
Qed.

Lemma C3_witness :
  count_heading_columns [el "th" []] (Js.Num 0) = Js.Normal (Js.Num 1)
  /\ count_heading_columns [th_colspan "0"] (Js.Num 0) = Js.Normal (Js.Num 0)
  /\ Js.parseInt "-12" = Js.Num (-12)
  /\ Js.parseInt "abc" = Js.NaN.
Proof.
  destruct C3_colspan_as_parsed as (Hdefault & Hparsed & Hpositive & _ & Hnan & _).
  split; [|split; [|split]].
  - rewrite (Hdefault (el "th" []) [] (Js.Num 0)); [reflexivity|reflexivity|].
    left. reflexivity.
  - rewrite (Hparsed (th_colspan "0") [] (Js.Num 0) "0");
      [reflexivity|reflexivity|reflexivity|discriminate].
  - destruct (Hpositive "12" eq_refl) as (_ & _ & ->);
      [vm_compute; discriminate|reflexivity].
  - apply Hnan; [vm_compute; lia|reflexivity..].
Defined.

(** C3 as stated fails: ["0"], ["-2"] and ["abc"] are not positive integers,
    and a heading cell with such a [colspan] counts for 0, for -2 and for
    [NaN], not for 1. *)
Lemma C3_counterexample :
  positive_integer "0" = false
  /\ scanRowForHeadingColumns (span_row "0") = Js.Normal (Js.Num 0)
  /\ positive_integer "-2" = false
  /\ scanRowForHeadingColumns (span_row "-2") = Js.Normal (Js.Num (-2))
  /\ positive_integer "abc" = false
  /\ scanRowForHeadingColumns (span_row "abc") = Js.Normal Js.NaN
  /\ scanRowForHeadingColumns (span_row "0") <> Js.Normal (Js.Num 1).
Proof.
  assert (scanRowForHeadingColumns (span_row "0") = Js.Normal (Js.Num 0))
    as Hzero by (vm_compute; reflexivity).
  split; [reflexivity|]. split; [exact Hzero|]. split; [reflexivity|].
  split; [vm_compute; reflexivity|]. split; [reflexivity|].
  split; [vm_compute; reflexivity|]. rewrite Hzero. discriminate.
Qed.

(** C4.  In a table with two [thead] children or more, only the first one,
    in document order, is the header section: the heading rows are its rows
    and [headingRows] counts them, while the rows of a later [thead] come
    among the body rows, in document order, and are scanned for heading
    columns like them. *)
Theorem C4_only_first_thead_is_header :
  forall name attrs before thead1 between thead2 after meta,
    first_thead before = None ->
    name_is thead1 "thead" = true ->
    name_is thead2 "thead" = true ->
    scanTable
      (ViewElement name attrs (before ++ thead1 :: between ++ thead2 :: after))
    = Js.Normal meta ->
    headingRows meta = Js.Num (Z.of_nat (length (children_of thead1)))
    /\ rows meta
       = children_of thead1
         ++ (List.flat_map section_rows before
             ++ List.flat_map section_rows between
             ++ children_of thead2
             ++ List.flat_map section_rows after)
    /\ (forall tr c, In tr (children_of thead2) -> contributes tr c ->
          exists z, headingColumns meta = Js.Num z /\ (c <= z)%Z).
Proof.
  intros name attrs before thead1 between thead2 after meta Hnone H1 H2 Hscan.
  destruct (scanTable_element _ _ Hscan) as (hc & Hw & ->). simpl in *.
  destruct (first_thead_app before thead1 (between ++ thead2 :: after) Hnone H1)
    as [Hfirst Hwithout].
  assert (other_rows (before ++ thead1 :: between ++ thead2 :: after)
          = List.flat_map section_rows before
            ++ List.flat_map section_rows between
            ++ children_of thead2 ++ List.flat_map section_rows after) as Hother.
  { unfold other_rows. rewrite Hwithout, !flat_map_app. simpl.
    rewrite (thead_rows _ H2). reflexivity. }
  unfold first_thead_rows in *. rewrite Hfirst in *. simpl in *.
  rewrite Hother in *. split; [reflexivity|]. split; [reflexivity|].
  intros tr c Hin Hc.
  destruct (widest_maximum _ _ _ Hw) as (z & -> & _ & Hub & _).
  exists z. split; [reflexivity|]. apply (Hub tr c); [|exact Hc].
  rewrite !in_app_iff. tauto.
Qed.

Lemma C4_witness :
  scanTable two_theads
  = Js.Normal {| headingRows := Js.Num 1; headingColumns := Js.Num 1;
                 rows := [cell_row "1"; cell_row "2";
                          el "tr" [el "th" [ViewText "3"]]] |}
  /\ exists z, Js.Num 1 = Js.Num z /\ (1 <= z)%Z.
Proof.
  assert (scanTable two_theads
          = Js.Normal {| headingRows := Js.Num 1; headingColumns := Js.Num 1;
                         rows := [cell_row "1"; cell_row "2";
                                  el "tr" [el "th" [ViewText "3"]]] |}) as Hscan
    by (vm_compute; reflexivity).
  split; [exact Hscan|].
  destruct (C4_only_first_thead_is_header "table" ∅ []
              (el "thead" [cell_row "1"]) [el "tbody" [cell_row "2"]]
              (el "thead" [el "tr" [el "th" [ViewText "3"]]]) [] _
              eq_refl eq_refl eq_refl Hscan) as (_ & _ & Hcols).
  apply (Hcols (el "tr" [el "th" [ViewText "3"]]) 1%Z); [left; reflexivity|].
  vm_compute. reflexivity.
Defined.

(** ** Running the converters *)

Lemma exec_bind {W A B : Type} (api : ConversionApi W) (p : Prog A)
    (k : A -> Prog B) (w : W) :
  exec api (prog_bind k p) w
  = match returned (exec api p w) with
    | Js.Normal a =>
        {| returned := returned (exec api (k a) (final (exec api p w)));
           final := final (exec api (k a) (final (exec api p w)));
           calls := calls (exec api p w)
                    ++ calls (exec api (k a) (final (exec api p w))) |}
    | Js.Throw e =>
        {| returned := Js.Throw e; final := final (exec api p w);
           calls := calls (exec api p w) |}
    end.
Proof.
  revert w. induction p as [a|e|c k' IH]; intros w.
  - simpl. destruct (exec api (k a) w); reflexivity.
  - reflexivity.
  - simpl. rewrite IH.
    destruct (returned (exec api (k' _) _)); reflexivity.
Qed.

Lemma exec_forEach_convertItem {W : Type} (api : ConversionApi W)
    (items : list ViewNode) (cursor : ModelPosition) (w : W) :
  exec api (forEach items (fun item => call (convertItem item cursor))) w
  = {| returned := Js.Normal tt;
       final := List.fold_left
                  (fun w item => api_convertItem api item cursor w) items w;
       calls := List.map (fun item => convertItem item cursor) items |}.
Proof.
  revert w. induction items as [|item items IH]; intros w; simpl.
  - reflexivity.
  - rewrite IH. reflexivity.
Qed.

Lemma exec_createEmptyTableCell {W : Type} (api : ConversionApi W)
    (pos : ModelPosition) (w : W) :
  exec api (createEmptyTableCell pos) w
  = {| returned := Js.Normal tt;
       final := api_insert api (api_createElement api "tableCell" ∅ w).1 pos
                  (api_createElement api "tableCell" ∅ w).2;
       calls := [writer_createElement "tableCell" ∅;
                 writer_insert (api_createElement api "tableCell" ∅ w).1 pos] |}.
Proof. reflexivity. Qed.

Lemma exec_ensure_paragraph {W : Type} (api : ConversionApi W)
    (tableCell : ModelElement) (cursor : ModelPosition) (w : W) :
  exec api (ensure_paragraph tableCell cursor) w
  = if Nat.eqb (api_childCount api tableCell w) 0 then
      {| returned := Js.Normal tt;
         final := api_insertElement api "paragraph" cursor w;
         calls := [element_childCount tableCell;
                   writer_insertElement "paragraph" cursor] |}
    else
      {| returned := Js.Normal tt; final := w;
         calls := [element_childCount tableCell] |}.
Proof.
  unfold ensure_paragraph. simpl.
  destruct (Nat.eqb (api_childCount api tableCell w) 0); reflexivity.
Qed.

Section TableListener.
Context {W : Type} (api : ConversionApi W) (w : W) (data : Data).

Lemma upcastTable_consumed :
  api_test api (viewItem data) w = false ->
  exec api (upcastTable_listener data) w
  = {| returned := Js.Normal data; final := w;
       calls := [consumable_test (viewItem data)] |}.
Proof. intros H. unfold upcastTable_listener. simpl. rewrite H. reflexivity. Qed.

Lemma upcastTable_scan_throws (e : Js.error) :
  api_test api (viewItem data) w = true ->
  scanTable (viewItem data) = Js.Throw e ->
  exec api (upcastTable_listener data) w
  = {| returned := Js.Throw e; final := w;
       calls := [consumable_test (viewItem data)] |}.
Proof.
  intros H Hscan. unfold upcastTable_listener. simpl. rewrite H, Hscan.
  reflexivity.
Qed.

Lemma upcastTable_rejected (meta : TableMeta) :
  api_test api (viewItem data) w = true ->
  scanTable (viewItem data) = Js.Normal meta ->
  (table_split api w data meta).1 = None ->
  exec api (upcastTable_listener data) w
  = {| returned := Js.Normal data;
       final := (table_split api w data meta).2;
       calls := [consumable_test (viewItem data);
                 writer_createElement "table"
                   (table_attributes (headingRows meta) (headingColumns meta));
                 splitToAllowedParent (table_created api w meta).1
                   (modelCursor data)] |}.
Proof.
  intros H Hscan Hsplit. unfold upcastTable_listener. simpl.
  rewrite H, Hscan. simpl. unfold table_split, table_created in Hsplit.
  rewrite Hsplit. reflexivity.
Qed.

Lemma upcastTable_placed (meta : TableMeta) (splitResult : SplitResult) :
  api_test api (viewItem data) w = true ->
  scanTable (viewItem data) = Js.Normal meta ->
  (table_split api w data meta).1 = Some splitResult ->
  exec api (upcastTable_listener data) w
  = {| returned :=
         Js.Normal
           {| viewItem := viewItem data;
              modelCursor :=
                match cursorParent splitResult with
                | Some parent => createAt parent None
                | None => createAfter (table_created api w meta).1
                end;
              modelRange :=
                Some {| range_start := createBefore (table_created api w meta).1;
                        range_end := createAfter (table_created api w meta).1 |} |};
       final := table_populated api w data meta splitResult;
       calls :=
         [consumable_test (viewItem data);
          writer_createElement "table"
            (table_attributes (headingRows meta) (headingColumns meta));
          splitToAllowedParent (table_created api w meta).1 (modelCursor data);
          writer_insert (table_created api w meta).1 (position splitResult);
          consumable_consume (viewItem data)]
         ++ (if negb (Nat.eqb (length (rows meta)) 0) then
               List.map
                 (fun row =>
                    convertItem row
                      (createAt (table_created api w meta).1 (Some "end")))
                 (rows meta)
             else
               [writer_createElement "tableRow" ∅;
                writer_insert (row_created api w data meta splitResult).1
                  (createAt (table_created api w meta).1 (Some "end"));
                writer_createElement "tableCell" ∅;
                writer_insert (emptyCell_created api w data meta splitResult).1
                  (createAt (row_created api w data meta splitResult).1
                     (Some "end"))]) |}.
Proof.
  intros H Hscan Hsplit. unfold upcastTable_listener. simpl.
  rewrite H, Hscan. simpl. unfold table_split, table_created in Hsplit.
  rewrite Hsplit. simpl. rewrite exec_bind. unfold table_populated.
  destruct (negb (Nat.eqb (length (rows meta)) 0)).
  - rewrite exec_forEach_convertItem. simpl. rewrite app_nil_r. reflexivity.
  - reflexivity.
Qed.

End TableListener.

Section CellListener.
Context {W : Type} (api : ConversionApi W) (w : W) (data : Data).

Lemma upcastTableCell_consumed :
  api_test api (viewItem data) w = false ->
  exec api (upcastTableCell_listener data) w
  = {| returned := Js.Normal data; final := w;
       calls := [consumable_test (viewItem data)] |}.
Proof. intros H. unfold upcastTableCell_listener. simpl. rewrite H. reflexivity. Qed.

Lemma upcastTableCell_rejected :
  api_test api (viewItem data) w = true ->
  (cell_split api w data).1 = None ->
  exec api (upcastTableCell_listener data) w
  = {| returned := Js.Normal data;
       final := (cell_split api w data).2;
       calls := [consumable_test (viewItem data);
                 writer_createElement "tableCell" ∅;
                 splitToAllowedParent (cell_created api w).1 (modelCursor data)] |}.
Proof.
  intros H Hsplit. unfold upcastTableCell_listener. simpl. rewrite H. simpl.
  unfold cell_split, cell_created in Hsplit. rewrite Hsplit. reflexivity.
Qed.

Lemma upcastTableCell_placed (splitResult : SplitResult) :
  api_test api (viewItem data) w = true ->
  (cell_split api w data).1 = Some splitResult ->
  exec api (upcastTableCell_listener data) w
  = {| returned :=
         Js.Normal
           {| viewItem := viewItem data;
              modelCursor := createAfter (cell_created api w).1;
              modelRange :=
                Some {| range_start := createBefore (cell_created api w).1;
                        range_end := createAfter (cell_created api w).1 |} |};
       final := cell_finished api w data splitResult;
       calls :=
         [consumable_test (viewItem data);
          writer_createElement "tableCell" ∅;
          splitToAllowedParent (cell_created api w).1 (modelCursor data);
          writer_insert (cell_created api w).1 (position splitResult);
          consumable_consume (viewItem data);
          convertChildren (viewItem data) (createAt (cell_created api w).1 None);
          element_childCount (cell_created api w).1]
         ++ (if Nat.eqb (api_childCount api (cell_created api w).1
                           (cell_converted api w data splitResult)) 0
             then [writer_insertElement "paragraph"
                     (createAt (cell_created api w).1 None)]
             else []) |}.
Proof.
  intros H Hsplit. unfold upcastTableCell_listener. simpl. rewrite H. simpl.
  unfold cell_split, cell_created in Hsplit. rewrite Hsplit. simpl.
  unfold cell_finished, cell_converted, cell_consumed, cell_split, cell_created.
  destruct (Nat.eqb _ 0); reflexivity.
Qed.

End CellListener.

(** ** The small engine abides by the laws *)

Lemma ref_adopt_length (parent item : ModelElement)
    (place : list ModelElement -> list ModelElement) (w : RefWorld) :
  length (ref_tree (ref_adopt parent item place w)) = length (ref_tree w).
Proof.
  unfold ref_adopt. case_bool_decide; simpl; [reflexivity|apply length_alter].
Qed.

Lemma ref_adopt_other (parent item other : ModelElement)
    (place : list ModelElement -> list ModelElement) (w : RefWorld) :
  other = item \/ other <> parent ->
  ref_childCount other (ref_adopt parent item place w) = ref_childCount other w.
Proof.
  intros H. unfold ref_adopt, ref_childCount.
  case_bool_decide as Heq; simpl; [reflexivity|].
  rewrite list_lookup_alter_ne; [reflexivity|]. destruct H; congruence.
Qed.

Lemma ref_adopt_parent (parent item : ModelElement)
    (place : list ModelElement -> list ModelElement) (w : RefWorld) :
  parent < length (ref_tree w) -> parent <> item ->
  (forall l, length (place l) = S (length l)) ->
  ref_childCount parent (ref_adopt parent item place w)
  = S (ref_childCount parent w).
Proof.
  intros Hlive Hne Hplace. unfold ref_adopt, ref_childCount.
  rewrite bool_decide_eq_false_2 by exact Hne.
  cbn [ref_tree]. rewrite list_lookup_alter_eq.
  destruct (lookup_lt_is_Some_2 _ _ Hlive) as [e He]. rewrite He. simpl.
  apply Hplace.
Qed.

Lemma ref_insert_length (item : ModelElement) (pos : ModelPosition)
    (w : RefWorld) :
  length (ref_tree (ref_insert item pos w)) = length (ref_tree w).
Proof.
  destruct pos as [parent [o|]|sibling|sibling]; simpl;
    repeat case_bool_decide; try reflexivity; try apply ref_adopt_length;
    destruct (ref_parent sibling w); try reflexivity; apply ref_adopt_length.
Qed.

Lemma ref_insert_item (item : ModelElement) (pos : ModelPosition)
    (w : RefWorld) :
  ref_childCount item (ref_insert item pos w) = ref_childCount item w.
Proof.
  destruct pos as [parent [o|]|sibling|sibling]; simpl;
    repeat case_bool_decide; try reflexivity;
    try (apply ref_adopt_other; left; reflexivity);
    destruct (ref_parent sibling w); try reflexivity;
    apply ref_adopt_other; left; reflexivity.
Qed.

Lemma ref_convertChildren_length (item : ViewNode) (cursor : ModelPosition)
    (w : RefWorld) :
  length (ref_tree w) <= length (ref_tree (ref_convertChildren item cursor w)).
Proof.
  unfold ref_convertChildren. generalize (children_of item) as cs.
  intros cs. revert w. induction cs as [|c cs IH]; intros w; simpl; [lia|].
  etransitivity; [|apply IH].
  unfold ref_convertItem, ref_insertElement. simpl.
  rewrite ref_insert_length. simpl. rewrite length_app. simpl. lia.
Qed.

Lemma ref_api_laws
    (schema : ModelElement -> ModelPosition -> option SplitResult) :
  WriterLaws (ref_api schema) ref_live.
Proof.
  split; simpl; unfold ref_live.
  - intros name attributes w. simpl. lia.
  - intros name attributes w. simpl. rewrite length_app. simpl. lia.
  - intros name attributes w item Hlive. simpl. rewrite length_app. simpl. lia.
  - intros name attributes w. unfold ref_childCount. simpl.
    rewrite list_lookup_middle by reflexivity. reflexivity.
  - intros candidate cursor w item Hlive. exact Hlive.
  - reflexivity.
  - intros item pos w other Hlive. rewrite ref_insert_length. exact Hlive.
  - apply ref_insert_item.
  - intros name attributes parent w Hlive. simpl.
    rewrite ref_adopt_parent.
    + unfold ref_childCount. simpl. rewrite lookup_app_l by exact Hlive. reflexivity.
    + simpl. rewrite length_app. simpl. lia.
    + lia.
    + intros l. rewrite length_app. simpl. lia.
  - intros name attributes parent w other Hlive Hne. simpl.
    rewrite ref_adopt_other by (right; exact Hne).
    unfold ref_childCount. simpl. rewrite lookup_app_l by exact Hlive. reflexivity.
  - intros viewItem w item Hlive. exact Hlive.
  - reflexivity.
  - intros viewItem cursor w item Hlive.
    pose proof (ref_convertChildren_length viewItem cursor w). lia.
  - intros name parent w Hlive. unfold ref_insertElement. simpl.
    rewrite ref_adopt_parent.
    + unfold ref_childCount. simpl. rewrite lookup_app_l by exact Hlive. reflexivity.
    + simpl. rewrite length_app. simpl. lia.
    + lia.
    + reflexivity.
Qed.

(** ** Properties of the table converter *)

(** C5.  When [splitToAllowedParent] reports that the table cannot be
    placed, the table listener returns without an exception and leaves
    [data] as it was; it has made three calls only: the test of the ledger,
    the creation of the table element and the request to the schema.  No
    call inserts anything, none consumes the view table, none reaches the
    dispatcher, and the engine is left in the state in which
    [splitToAllowedParent] returned. *)
Theorem C5_rejected_table_changes_nothing :
  forall (W : Type) (api : ConversionApi W) (w : W) (data : Data)
         (meta : TableMeta),
    api_test api (viewItem data) w = true ->
    scanTable (viewItem data) = Js.Normal meta ->
    (table_split api w data meta).1 = None ->
    let o := exec api (upcastTable_listener data) w in
    returned o = Js.Normal data
    /\ final o = (table_split api w data meta).2
    /\ calls o
       = [consumable_test (viewItem data);
          writer_createElement "table"
            (table_attributes (headingRows meta) (headingColumns meta));
          splitToAllowedParent (table_created api w meta).1 (modelCursor data)]
    /\ forallb (fun c => negb (inserts c || consumes c || dispatches c))
         (calls o) = true.
Proof.
  intros W api w data meta Htest Hscan Hsplit o. subst o.
  rewrite (upcastTable_rejected api w data meta Htest Hscan Hsplit). simpl.
  repeat split.
Qed.

Lemma C5_witness :
  let o := exec (ref_api schema_rejected)
             (upcastTable_listener (data_at_root scenario_A)) ref_start in
  returned o = Js.Normal (data_at_root scenario_A)
  /\ ref_ledger (final o) = []
  /\ ref_tree (final o) !! 0
     = Some {| ref_name := "$root"; ref_attributes := ∅;
               ref_children := [1; 2] |}.
Proof.
  destruct (C5_rejected_table_changes_nothing RefWorld
              (ref_api schema_rejected) ref_start (data_at_root scenario_A)
              {| headingRows := Js.Num 1; headingColumns := Js.Num 0;
                 rows := [cell_row "1"; cell_row "2"; cell_row "3"] |}
              eq_refl scenario_A_scan eq_refl) as (Hret & Hfinal & _ & _).
  cbv zeta. rewrite Hret, Hfinal. repeat split.
Defined.

(** The same holds of the cell listener. *)
Lemma rejected_cell_changes_nothing {W : Type} (api : ConversionApi W) (w : W)
    (data : Data) :
  api_test api (viewItem data) w = true ->
  (cell_split api w data).1 = None ->
  returned (exec api (upcastTableCell_listener data) w) = Js.Normal data
  /\ final (exec api (upcastTableCell_listener data) w) = (cell_split api w data).2
  /\ forallb (fun c => negb (inserts c || consumes c || dispatches c))
       (calls (exec api (upcastTableCell_listener data) w)) = true.
Proof.
  intros Htest Hsplit.
  rewrite (upcastTableCell_rejected api w data Htest Hsplit). simpl.
  repeat split.
Qed.

Lemma empty_scan (viewTable : ViewNode) (meta : TableMeta) :
  scanTable viewTable = Js.Normal meta -> rows meta = [] ->
  meta = {| headingRows := Js.Num 0; headingColumns := Js.Num 0; rows := [] |}.
Proof.
  intros Hscan Hrows.
  destruct (scanTable_element _ _ Hscan) as (hc & Hw & ->). simpl in Hrows.
  apply app_eq_nil in Hrows as [Hheads Hothers].
  rewrite Hothers in Hw. simpl in Hw. injection Hw as <-.
  rewrite Hheads, Hothers. reflexivity.
Qed.

Section Population.
Context {W : Type} (api : ConversionApi W) (live : ModelElement -> W -> Prop).
Hypothesis laws : WriterLaws api live.

(** The table is still without children when the listener starts to
    populate it. *)
Lemma placed_table_is_empty (w : W) (data : Data) (meta : TableMeta)
    (splitResult : SplitResult) :
  live (table_created api w meta).1 (table_consumed api w data meta splitResult)
  /\ api_childCount api (table_created api w meta).1
       (table_consumed api w data meta splitResult) = 0.
Proof.
  unfold table_consumed, table_split. split.
  - apply (consume_live _ _ laws), (insert_live _ _ laws), (split_live _ _ laws),
      (create_live _ _ laws).
  - rewrite (consume_frame _ _ laws), (insert_item _ _ laws),
      (split_candidate _ _ laws). apply (create_empty _ _ laws).
Qed.

(** One row and one cell in it, put into an empty table. *)
Lemma one_row_one_cell (w : W) (table : ModelElement) :
  live table w -> api_childCount api table w = 0 ->
  let row := api_createElement api "tableRow" ∅ w in
  let cell :=
    api_createElement api "tableCell" ∅
      (api_insert api row.1 (createAt table (Some "end")) row.2) in
  let w' := api_insert api cell.1 (createAt row.1 (Some "end")) cell.2 in
  api_childCount api table w' = 1 /\ api_childCount api row.1 w' = 1
  /\ api_childCount api cell.1 w' = 0
  /\ row.1 <> table /\ cell.1 <> row.1 /\ cell.1 <> table.
Proof.
  intros Hlive Hempty row cell w'.
  assert (row.1 <> table) as Hrt.
  { intros Heq. apply (create_fresh _ _ laws "tableRow" ∅ w).
    fold row. rewrite Heq. exact Hlive. }
  set (w6 := api_insert api row.1 (createAt table (Some "end")) row.2) in *.
  assert (api_childCount api table w6 = 1) as Hcount6.
  { unfold w6, row. rewrite (insert_new_end _ _ laws) by exact Hlive.
    rewrite Hempty. reflexivity. }
  assert (api_childCount api row.1 w6 = 0) as Hrowc6.
  { unfold w6. rewrite (insert_item _ _ laws). apply (create_empty _ _ laws). }
  assert (live table w6) as Hlive6.
  { apply (insert_live _ _ laws), (create_keeps_live _ _ laws). exact Hlive. }
  assert (live row.1 w6) as Hrow6.
  { apply (insert_live _ _ laws), (create_live _ _ laws). }
  assert (cell.1 <> row.1) as Hcr.
  { intros Heq. apply (create_fresh _ _ laws "tableCell" ∅ w6).
    fold cell. rewrite Heq. exact Hrow6. }
  assert (cell.1 <> table) as Hct.
  { intros Heq. apply (create_fresh _ _ laws "tableCell" ∅ w6).
    fold cell. rewrite Heq. exact Hlive6. }
  unfold w', cell. repeat split; try assumption.
  - rewrite (insert_new_frame _ _ laws) by auto. exact Hcount6.
  - rewrite (insert_new_end _ _ laws) by exact Hrow6. rewrite Hrowc6. reflexivity.
  - rewrite (insert_item _ _ laws). apply (create_empty _ _ laws).
Qed.

End Population.

(** C6.  When the scan finds no row, the table listener does not go through
    the dispatcher: after placing the table it creates one [tableRow], puts
    it at the end of the table, and has one [tableCell] created and put at
    the end of that row.  Both heading counts are 0 and the table is created
    with no attribute.  With an engine that abides by the laws of the
    writer, the table ends with exactly one child, the row, and the row with
    exactly one child, the cell. *)
Theorem C6_empty_table_one_row_one_cell :
  forall (W : Type) (api : ConversionApi W) (live : ModelElement -> W -> Prop)
         (w : W) (data : Data) (meta : TableMeta) (splitResult : SplitResult),
    WriterLaws api live ->
    api_test api (viewItem data) w = true ->
    scanTable (viewItem data) = Js.Normal meta ->
    rows meta = [] ->
    (table_split api w data meta).1 = Some splitResult ->
    let o := exec api (upcastTable_listener data) w in
    let table := (table_created api w meta).1 in
    let row := (row_created api w data meta splitResult).1 in
    let cell := (emptyCell_created api w data meta splitResult).1 in
    headingRows meta = Js.Num 0 /\ headingColumns meta = Js.Num 0
    /\ calls o
       = [consumable_test (viewItem data);
          writer_createElement "table" ∅;
          splitToAllowedParent table (modelCursor data);
          writer_insert table (position splitResult);
          consumable_consume (viewItem data);
          writer_createElement "tableRow" ∅;
          writer_insert row (createAt table (Some "end"));
          writer_createElement "tableCell" ∅;
          writer_insert cell (createAt row (Some "end"))]
    /\ forallb (fun c => negb (dispatches c)) (calls o) = true
    /\ api_childCount api table (final o) = 1
    /\ api_childCount api row (final o) = 1
    /\ row <> table /\ cell <> row /\ cell <> table.
Proof.
  intros W api live w data meta splitResult laws Htest Hscan Hrows Hsplit.
  pose proof (empty_scan _ _ Hscan Hrows) as Hmeta. subst meta.
  intros o table row cell. subst o.
  rewrite (upcastTable_placed api w data _ splitResult Htest Hscan Hsplit).
  destruct (placed_table_is_empty api live laws w data
              {| headingRows := Js.Num 0; headingColumns := Js.Num 0; rows := [] |}
              splitResult) as [Hlive Hempty].
  destruct (one_row_one_cell api live laws _ _ Hlive Hempty)
    as (Htable & Hrow & _ & Hrt & Hcr & Hct).
  simpl. repeat split; assumption.
Qed.

Lemma C6_witness :
  let o := exec (ref_api schema_placed)
             (upcastTable_listener (data_at_root (el "table" []))) ref_start in
  ref_childCount 3 (final o) = 1 /\ ref_childCount 4 (final o) = 1
  /\ (ref_name <$> ref_tree (final o))
     = ["$root"; "paragraph"; "paragraph"; "table"; "tableRow"; "tableCell"].
Proof.
  destruct (C6_empty_table_one_row_one_cell RefWorld (ref_api schema_placed)
              ref_live ref_start (data_at_root (el "table" []))
              {| headingRows := Js.Num 0; headingColumns := Js.Num 0; rows := [] |}
              {| position := createAt 0 (Some "end"); cursorParent := None |}
              (ref_api_laws schema_placed) eq_refl eq_refl eq_refl eq_refl)
    as (_ & _ & _ & _ & Htable & Hrow & _).
  cbv zeta. split; [exact Htable|]. split; [exact Hrow|]. reflexivity.
Defined.

Lemma table_attributes_lookup (r c : Z) :
  (0 <= r)%Z -> (0 <= c)%Z ->
  table_attributes (Js.Num r) (Js.Num c) !! "headingRows"
  = (if (0 <? r)%Z then Some (Js.Num r) else None)
  /\ table_attributes (Js.Num r) (Js.Num c) !! "headingColumns"
     = (if (0 <? c)%Z then Some (Js.Num c) else None)
  /\ forall key, key <> "headingRows" -> key <> "headingColumns" ->
       table_attributes (Js.Num r) (Js.Num c) !! key = None.
Proof.
  intros Hr Hc. unfold table_attributes, Js.truthy.
  destruct (Z.eqb_spec r 0) as [->|Hr0], (Z.eqb_spec c 0) as [->|Hc0]; simpl.
  - repeat split; intros; apply lookup_empty.
  - replace (0 <? c)%Z with true by (symmetry; apply Z.ltb_lt; lia).
    repeat split; intros; simplify_map_eq; reflexivity.
  - replace (0 <? r)%Z with true by (symmetry; apply Z.ltb_lt; lia).
    repeat split; intros; simplify_map_eq; reflexivity.
  - replace (0 <? r)%Z with true by (symmetry; apply Z.ltb_lt; lia).
    replace (0 <? c)%Z with true by (symmetry; apply Z.ltb_lt; lia).
    repeat split; intros; simplify_map_eq; reflexivity.
Qed.

Lemma scan_counts (viewTable : ViewNode) (meta : TableMeta) :
  scanTable viewTable = Js.Normal meta ->
  exists r c, headingRows meta = Js.Num r /\ headingColumns meta = Js.Num c
    /\ (0 <= r)%Z /\ (0 <= c)%Z.
Proof.
  intros Hscan. destruct (scanTable_element _ _ Hscan) as (hc & Hw & ->).
  destruct (widest_maximum _ _ _ Hw) as (z & -> & Hle & _).
  eexists _, z. simpl. repeat split; [lia|exact Hle].
Qed.

(** C8.  The table element is created with the attribute object built from
    the scan.  The two counts of a scan are numbers that are not negative;
    [headingRows] is among the attributes exactly when the count of heading
    rows is greater than 0, and then with that count as its value, and
    likewise [headingColumns]; no attribute is ever present with the value
    0. *)
Theorem C8_heading_attributes_iff_positive :
  forall (W : Type) (api : ConversionApi W) (w : W) (data : Data)
         (meta : TableMeta),
    api_test api (viewItem data) w = true ->
    scanTable (viewItem data) = Js.Normal meta ->
    let o := exec api (upcastTable_listener data) w in
    let attributes :=
      table_attributes (headingRows meta) (headingColumns meta) in
    calls o !! 1 = Some (writer_createElement "table" attributes)
    /\ (forall a, In (writer_createElement "table" a) (calls o) ->
          a = attributes)
    /\ (exists r c,
          headingRows meta = Js.Num r /\ headingColumns meta = Js.Num c
          /\ (0 <= r)%Z /\ (0 <= c)%Z
          /\ attributes !! "headingRows"
             = (if (0 <? r)%Z then Some (Js.Num r) else None)
          /\ attributes !! "headingColumns"
             = (if (0 <? c)%Z then Some (Js.Num c) else None))
    /\ (is_Some (attributes !! "headingRows")
        <-> Js.gt (headingRows meta) (Js.Num 0) = true)
    /\ (is_Some (attributes !! "headingColumns")
        <-> Js.gt (headingColumns meta) (Js.Num 0) = true)
    /\ (forall key, attributes !! key <> Some (Js.Num 0)).
Proof.
  intros W api w data meta Htest Hscan o attributes.
  destruct (scan_counts _ _ Hscan) as (r & c & Hr & Hc & Hr0 & Hc0).
  destruct (table_attributes_lookup r c Hr0 Hc0) as (Hrows & Hcols & Hothers).
  assert (calls o !! 1 = Some (writer_createElement "table" attributes)
          /\ (forall a, In (writer_createElement "table" a) (calls o) ->
                a = attributes)) as [Hcall Honly].
  { subst o. destruct (table_split api w data meta).1 as [splitResult|] eqn:Hsplit.
    - rewrite (upcastTable_placed api w data meta splitResult Htest Hscan Hsplit).
      split; [reflexivity|]. simpl. intros a Hin.
      destruct Hin as [Hin|[Hin|[Hin|[Hin|[Hin|Hin]]]]]; try discriminate.
      + injection Hin as <-. reflexivity.
      + destruct (negb (Nat.eqb (length (rows meta)) 0)).
        * apply in_map_iff in Hin as (row & Hrow & _). discriminate.
        * simpl in Hin. destruct Hin as [Hin|[Hin|[Hin|[Hin|[]]]]]; discriminate.
    - rewrite (upcastTable_rejected api w data meta Htest Hscan Hsplit).
      split; [reflexivity|]. simpl. intros a Hin.
      destruct Hin as [Hin|[Hin|[Hin|[]]]]; try discriminate.
      injection Hin as <-. reflexivity. }
  split; [exact Hcall|]. split; [exact Honly|].
  subst attributes. rewrite Hr, Hc in *. simpl.
  split; [exists r, c; repeat split; assumption|].
  split; [|split].
  - rewrite Hrows. destruct (Z.ltb_spec 0 r) as [Hlt|Hge].
    + split; [reflexivity|eauto].
    + split; [intros [x Hx]; discriminate|discriminate].
  - rewrite Hcols. destruct (Z.ltb_spec 0 c) as [Hlt|Hge].
    + split; [reflexivity|eauto].
    + split; [intros [x Hx]; discriminate|discriminate].
  - intros key Hkey.
    destruct (decide (key = "headingRows")) as [->|Hk1].
    { rewrite Hrows in Hkey. destruct (Z.ltb_spec 0 r); [|discriminate].
      injection Hkey as ->. lia. }
    destruct (decide (key = "headingColumns")) as [->|Hk2].
    { rewrite Hcols in Hkey. destruct (Z.ltb_spec 0 c); [|discriminate].
      injection Hkey as ->. lia. }
    rewrite (Hothers key Hk1 Hk2) in Hkey. discriminate.
Qed.

Lemma C8_witness :
  let attributes := table_attributes (Js.Num 1) (Js.Num 0) in
  calls (exec (ref_api schema_placed)
           (upcastTable_listener (data_at_root scenario_A)) ref_start) !! 1
  = Some (writer_createElement "table" attributes)
  /\ attributes !! "headingRows" = Some (Js.Num 1)
  /\ attributes !! "headingColumns" = None.
Proof.
  destruct (C8_heading_attributes_iff_positive RefWorld (ref_api schema_placed)
              ref_start (data_at_root scenario_A)
              {| headingRows := Js.Num 1; headingColumns := Js.Num 0;
                 rows := [cell_row "1"; cell_row "2"; cell_row "3"] |}
              eq_refl scenario_A_scan) as (Hcall & _).
  cbv zeta. split; [exact Hcall|]. split; reflexivity.
Defined.

(** C9.  After a successful conversion the table listener leaves in [data]
    the range from before the table to after it, and the cursor inside the
    remainder of the split when [splitToAllowedParent] returned one
    ([cursorParent]), at the end of the range, right after the table,
    otherwise. *)
Theorem C9_table_cursor_after_split_or_after_table :
  forall (W : Type) (api : ConversionApi W) (w : W) (data : Data)
         (meta : TableMeta) (splitResult : SplitResult),
    api_test api (viewItem data) w = true ->
    scanTable (viewItem data) = Js.Normal meta ->
    (table_split api w data meta).1 = Some splitResult ->
    let table := (table_created api w meta).1 in
    exists data',
      returned (exec api (upcastTable_listener data) w) = Js.Normal data'
      /\ modelRange data'
         = Some {| range_start := createBefore table;
                   range_end := createAfter table |}
      /\ (forall parent, cursorParent splitResult = Some parent ->
            modelCursor data' = createAt parent None)
      /\ (cursorParent splitResult = None ->
            modelCursor data' = createAfter table
            /\ Some (modelCursor data') = range_end <$> modelRange data').
Proof.
  intros W api w data meta splitResult Htest Hscan Hsplit table.
  rewrite (upcastTable_placed api w data meta splitResult Htest Hscan Hsplit).
  eexists. split; [reflexivity|]. simpl. split; [reflexivity|].
  split.
  - intros parent ->. reflexivity.
  - intros ->. split; reflexivity.
Qed.

Lemma C9_witness :
  (exists data',
     returned (exec (ref_api schema_split)
                 (upcastTable_listener (data_at_root scenario_A)) ref_start)
     = Js.Normal data'
     /\ modelCursor data' = createAt 2 None)
  /\ (exists data',
        returned (exec (ref_api schema_placed)
                    (upcastTable_listener (data_at_root scenario_A)) ref_start)
        = Js.Normal data'
        /\ modelCursor data' = createAfter 3).
Proof.
  split.
  - destruct (C9_table_cursor_after_split_or_after_table RefWorld
                (ref_api schema_split) ref_start (data_at_root scenario_A)
                {| headingRows := Js.Num 1; headingColumns := Js.Num 0;
                   rows := [cell_row "1"; cell_row "2"; cell_row "3"] |}
                {| position := createAfter 1; cursorParent := Some 2 |}
                eq_refl scenario_A_scan eq_refl)
      as (data' & Hret & _ & Hsplit & _).
    exists data'. split; [exact Hret|]. apply Hsplit. reflexivity.
  - destruct (C9_table_cursor_after_split_or_after_table RefWorld
                (ref_api schema_placed) ref_start (data_at_root scenario_A)
                {| headingRows := Js.Num 1; headingColumns := Js.Num 0;
                   rows := [cell_row "1"; cell_row "2"; cell_row "3"] |}
                {| position := createAt 0 (Some "end"); cursorParent := None |}
                eq_refl scenario_A_scan eq_refl)
      as (data' & Hret & _ & _ & Hplain).
    exists data'. split; [exact Hret|]. apply Hplain. reflexivity.
Defined.

(** ** Properties of the cell converter *)

Section CellLaws.
Context {W : Type} (api : ConversionApi W) (live : ModelElement -> W -> Prop).
Hypothesis laws : WriterLaws api live.

(** The new cell is still an element of the model once its children have
    been converted. *)
Lemma cell_live_after_children (w : W) (data : Data)
    (splitResult : SplitResult) :
  live (cell_created api w).1 (cell_converted api w data splitResult).
Proof.
  unfold cell_converted, cell_consumed, cell_split.
  apply (convertChildren_live _ _ laws), (consume_live _ _ laws),
    (insert_live _ _ laws), (split_live _ _ laws), (create_live _ _ laws).
Qed.

End CellLaws.

(** C7.  After a successful conversion of a cell, with an engine that abides
    by the laws of the writer, the new cell has a child.  The listener
    inserts one placeholder paragraph, at the start of the cell, when the
    conversion of the children has left the cell with no child, and the cell
    then has exactly that child; it inserts none when the cell has a child
    already, and leaves the model as the children's conversion left it.  The
    placeholder step run once more inserts nothing. *)
Theorem C7_cell_has_a_child :
  forall (W : Type) (api : ConversionApi W) (live : ModelElement -> W -> Prop)
         (w : W) (data : Data) (splitResult : SplitResult),
    WriterLaws api live ->
    api_test api (viewItem data) w = true ->
    (cell_split api w data).1 = Some splitResult ->
    let o := exec api (upcastTableCell_listener data) w in
    let cell := (cell_created api w).1 in
    let children :=
      api_childCount api cell (cell_converted api w data splitResult) in
    0 < api_childCount api cell (final o)
    /\ paragraph_inserts (calls o) = (if Nat.eqb children 0 then 1 else 0)
    /\ (children = 0 ->
          In (writer_insertElement "paragraph" (createAt cell None)) (calls o)
          /\ api_childCount api cell (final o) = 1)
    /\ (0 < children -> final o = cell_converted api w data splitResult)
    /\ exec api (ensure_paragraph cell (createAt cell None)) (final o)
       = {| returned := Js.Normal tt; final := final o;
            calls := [element_childCount cell] |}.
Proof.
  intros W api live w data splitResult laws Htest Hsplit o cell children.
  pose proof (cell_live_after_children api live laws w data splitResult) as Hlive.
  subst o. rewrite (upcastTableCell_placed api w data splitResult Htest Hsplit).
  cbn [final calls]. rewrite exec_ensure_paragraph. unfold cell_finished.
  fold cell in Hlive |- *. fold children.
  destruct (Nat.eqb_spec children 0) as [Hzero|Hsome].
  - pose proof (insertElement_start _ _ laws "paragraph" cell _ Hlive) as Hcount.
    fold children in Hcount. rewrite Hzero in Hcount. rewrite Hcount. simpl.
    repeat split; try lia; auto 10.
  - replace (Nat.eqb (api_childCount api cell (cell_converted api w data splitResult)) 0)
      with false by (symmetry; apply Nat.eqb_neq; exact Hsome).
    fold children. repeat split; try lia; reflexivity.
Qed.

Lemma C7_witness :
  let empty := exec (ref_api schema_placed)
                 (upcastTableCell_listener (data_at_root (el "td" []))) ref_start in
  let full := exec (ref_api schema_placed)
                (upcastTableCell_listener
                   (data_at_root (el "td" [ViewText "x"]))) ref_start in
  (0 < ref_childCount 3 (final empty) /\ paragraph_inserts (calls empty) = 1)
  /\ (0 < ref_childCount 3 (final full) /\ paragraph_inserts (calls full) = 0).
Proof.
  split.
  - destruct (C7_cell_has_a_child RefWorld (ref_api schema_placed) ref_live
                ref_start (data_at_root (el "td" []))
                {| position := createAt 0 (Some "end"); cursorParent := None |}
                (ref_api_laws schema_placed) eq_refl eq_refl)
      as (Hchild & Hcount & _).
    split; [exact Hchild|exact Hcount].
  - destruct (C7_cell_has_a_child RefWorld (ref_api schema_placed) ref_live
                ref_start (data_at_root (el "td" [ViewText "x"]))
                {| position := createAt 0 (Some "end"); cursorParent := None |}
                (ref_api_laws schema_placed) eq_refl eq_refl)
      as (Hchild & Hcount & _).
    split; [exact Hchild|exact Hcount].
Defined.

(** C10.  After a successful conversion the cell listener leaves in [data]
    the range from before the new cell to after it and the cursor at the end
    of that range, right after the cell, whatever [splitToAllowedParent]
    returned: also when it returned a [cursorParent], which the listener
    does not use. *)
Theorem C10_cell_cursor_always_after_cell :
  forall (W : Type) (api : ConversionApi W) (w : W) (data : Data)
         (splitResult : SplitResult),
    api_test api (viewItem data) w = true ->
    (cell_split api w data).1 = Some splitResult ->
    let cell := (cell_created api w).1 in
    exists data',
      returned (exec api (upcastTableCell_listener data) w) = Js.Normal data'
      /\ modelRange data'
         = Some {| range_start := createBefore cell;
                   range_end := createAfter cell |}
      /\ modelCursor data' = createAfter cell
      /\ (forall parent, cursorParent splitResult = Some parent ->
            modelCursor data' <> createAt parent None).
Proof.
  intros W api w data splitResult Htest Hsplit cell.
  rewrite (upcastTableCell_placed api w data splitResult Htest Hsplit).
  eexists. split; [reflexivity|]. simpl.
  split; [reflexivity|]. split; [reflexivity|]. discriminate.
Qed.

Lemma C10_witness :
  exists data',
    returned (exec (ref_api schema_split)
                (upcastTableCell_listener (data_at_root (el "td" []))) ref_start)
    = Js.Normal data'
    /\ modelCursor data' = createAfter 3.
Proof.
  destruct (C10_cell_cursor_always_after_cell RefWorld (ref_api schema_split)
              ref_start (data_at_root (el "td" []))
              {| position := createAfter 1; cursorParent := Some 2 |}
              eq_refl eq_refl) as (data' & Hret & _ & Hcursor & _).
  exists data'. split; [exact Hret|exact Hcursor].
Defined.

(* ===================================================================== *)
(** * Part III.  Further properties of the module                         *)
(* ===================================================================== *)

(** ** The scanner: failure, ignored nodes, counts *)

(** X1.  The scan of a table element throws exactly when a text node stands
    where a body row should be: among the rows of a section other than the
    first [thead].  Text nodes among the children of the table, or among the
    rows of the first [thead], do not make it throw. *)
Theorem scanTable_throws_iff_text_body_row :
  forall name attrs tableChildren,
    (exists e, scanTable (ViewElement name attrs tableChildren) = Js.Throw e)
    <-> (exists tr, In tr (other_rows tableChildren) /\ is_element tr = false).
Proof.
  intros name attrs tableChildren. rewrite scanTable_spec.
  pose proof (widest_normal_iff (other_rows tableChildren) (Js.Num 0)) as Hiff.
  split.
  - intros [e He].
    destruct (forallb is_element (other_rows tableChildren)) eqn:Hall.
    + destruct (proj1 Hiff eq_refl) as [v Hv]. rewrite Hv in He. discriminate.
    + destruct (existsb (fun tr => negb (is_element tr))
                  (other_rows tableChildren)) eqn:Hex.
      * apply existsb_exists in Hex as (tr & Hin & Htr).
        exists tr. split; [exact Hin|]. apply negb_true_iff. exact Htr.
      * exfalso. rewrite <- not_true_iff_false in Hall. apply Hall.
        apply forallb_forall. intros tr Hin.
        destruct (is_element tr) eqn:Htr; [reflexivity|].
        rewrite <- not_true_iff_false in Hex. exfalso. apply Hex.
        apply existsb_exists. exists tr. rewrite Htr. split; [exact Hin|reflexivity].
  - intros (tr & Hin & Htr).
    destruct (widest (other_rows tableChildren) (Js.Num 0)) as [v|e] eqn:Hw.
    + assert (forallb is_element (other_rows tableChildren) = true) as Hall
        by (apply Hiff; eauto).
      rewrite forallb_forall in Hall. rewrite (Hall tr Hin) in Htr. discriminate.
    + exists e. reflexivity.
Qed.

Lemma filter_sections_first_thead (tableChildren : list ViewNode) :
  first_thead (List.filter is_section tableChildren) = first_thead tableChildren
  /\ without_first_thead (List.filter is_section tableChildren)
     = List.filter is_section (without_first_thead tableChildren).
Proof.
  unfold first_thead. induction tableChildren as [|c rest [IH1 IH2]]; simpl.
  - split; reflexivity.
  - destruct (name_is c "thead") eqn:Hthead.
    + rewrite (thead_is_section _ Hthead). simpl. rewrite Hthead.
      split; reflexivity.
    + destruct (is_section c) eqn:Hsec; simpl; rewrite ?Hthead; simpl;
        rewrite ?Hsec, ?IH1, ?IH2; split; reflexivity.
Qed.

Lemma flat_map_filter_sections (l : list ViewNode) :
  List.flat_map section_rows (List.filter is_section l)
  = List.flat_map section_rows l.
Proof.
  induction l as [|c rest IH]; simpl; [reflexivity|].
  destruct (is_section c) eqn:Hsec; simpl; rewrite IH; [reflexivity|].
  unfold section_rows. rewrite Hsec. reflexivity.
Qed.

(** X2.  Only the [thead], [tbody] and [tfoot] children of the table count:
    the scan of a table is the scan of the table stripped of its other
    children (a caption, a [colgroup], text between the sections). *)
Theorem scanTable_ignores_other_children :
  forall name attrs tableChildren,
    scanTable (ViewElement name attrs tableChildren)
    = scanTable (ViewElement name attrs (List.filter is_section tableChildren)).
Proof.
  intros name attrs tableChildren. rewrite !scanTable_spec.
  destruct (filter_sections_first_thead tableChildren) as [Hfirst Hwithout].
  unfold first_thead_rows, other_rows.
  rewrite Hfirst, Hwithout, flat_map_filter_sections. reflexivity.
Qed.

Lemma rows_permutation (tableChildren : list ViewNode) :
  Permutation (first_thead_rows tableChildren ++ other_rows tableChildren)
    (List.flat_map section_rows tableChildren).
Proof.
  unfold first_thead_rows, other_rows, first_thead.
  induction tableChildren as [|c rest IH]; simpl; [constructor|].
  destruct (name_is c "thead") eqn:Hthead; simpl.
  - rewrite (thead_rows _ Hthead). reflexivity.
  - rewrite Permutation_app_swap_app. apply Permutation_app_head. exact IH.
Qed.

(** X3.  The scan neither loses nor repeats a row: the rows it returns are
    the rows of all the sections of the table, in another order at most. *)
Theorem scanTable_rows_are_all_section_rows :
  forall viewTable meta,
    scanTable viewTable = Js.Normal meta ->
    Permutation (rows meta)
      (List.flat_map section_rows (children_of viewTable))
    /\ length (rows meta)
       = length (List.flat_map section_rows (children_of viewTable)).
Proof.
  intros viewTable meta Hscan.
  destruct (scanTable_element _ _ Hscan) as (hc & _ & ->). simpl.
  pose proof (rows_permutation (children_of viewTable)) as Hperm.
  split; [exact Hperm|]. apply Permutation_length. exact Hperm.
Qed.

Lemma scanTable_rows_are_all_section_rows_witness :
  Permutation [cell_row "1"; cell_row "2"; cell_row "3"]
    [cell_row "2"; cell_row "1"; cell_row "3"].
Proof.
  exact (proj1 (scanTable_rows_are_all_section_rows scenario_A _ scenario_A_scan)).
Defined.

(** X4.  [headingRows] counts a leading run of [rows]: the first
    [headingRows] rows are the rows of the first [thead], and the rows after
    them are the body rows. *)
Theorem headingRows_is_the_leading_run :
  forall viewTable meta,
    scanTable viewTable = Js.Normal meta ->
    exists n,
      headingRows meta = Js.Num (Z.of_nat n)
      /\ n <= length (rows meta)
      /\ take n (rows meta) = first_thead_rows (children_of viewTable)
      /\ drop n (rows meta) = other_rows (children_of viewTable).
Proof.
  intros viewTable meta Hscan.
  destruct (scanTable_element _ _ Hscan) as (hc & _ & ->). simpl.
  exists (length (first_thead_rows (children_of viewTable))).
  split; [reflexivity|]. split; [rewrite length_app; lia|].
  split; [apply take_app_length|apply drop_app_length].
Qed.

Lemma headingRows_is_the_leading_run_witness :
  exists n, Js.Num 1 = Js.Num (Z.of_nat n)
    /\ n <= 3
    /\ take n [cell_row "1"; cell_row "2"; cell_row "3"] = [cell_row "1"]
    /\ drop n [cell_row "1"; cell_row "2"; cell_row "3"]
       = [cell_row "2"; cell_row "3"].
Proof.
  exact (headingRows_is_the_leading_run scenario_A _ scenario_A_scan).
Defined.

(** X5.  The rows of the first [thead] are not scanned for heading columns:
    whatever that section holds (heading cells with any span, text nodes),
    the outcome of the scan keeps the same [headingColumns], and the scan does
    not throw on its account. *)
Theorem first_thead_content_does_not_count :
  forall name attrs before attrs1 rows1 attrs2 rows2 after,
    first_thead before = None ->
    headingColumns
      <$> scanTable (ViewElement name attrs
                       (before ++ ViewElement "thead" attrs1 rows1 :: after))
    = headingColumns
      <$> scanTable (ViewElement name attrs
                       (before ++ ViewElement "thead" attrs2 rows2 :: after)).
Proof.
  intros name attrs before attrs1 rows1 attrs2 rows2 after Hnone.
  rewrite !scanTable_spec. unfold other_rows.
  rewrite (proj2 (first_thead_app before (ViewElement "thead" attrs1 rows1)
                    after Hnone eq_refl)).
  rewrite (proj2 (first_thead_app before (ViewElement "thead" attrs2 rows2)
                    after Hnone eq_refl)).
  destruct (widest (List.flat_map section_rows (before ++ after)) (Js.Num 0));
    reflexivity.
Qed.

Lemma first_thead_content_does_not_count_witness :
  headingColumns
    <$> scanTable (el "table" [el "tbody" [span_row "2"];
                               el "thead" [span_row "7"; ViewText "x"]])
  = headingColumns
    <$> scanTable (el "table" [el "tbody" [span_row "2"]; el "thead" []]).
Proof.
  exact (first_thead_content_does_not_count "table" ∅ [el "tbody" [span_row "2"]]
           ∅ [span_row "7"; ViewText "x"] ∅ [] [] eq_refl).
Defined.

(** X6.  When the first [thead] comes before every other row of the table,
    the rows are returned in document order. *)
Theorem thead_first_keeps_document_order :
  forall name attrs before thead after meta,
    first_thead before = None ->
    List.flat_map section_rows before = [] ->
    name_is thead "thead" = true ->
    scanTable (ViewElement name attrs (before ++ thead :: after))
    = Js.Normal meta ->
    rows meta = List.flat_map section_rows (before ++ thead :: after).
Proof.
  intros name attrs before thead after meta Hnone Hempty Hthead Hscan.
  destruct (scanTable_element _ _ Hscan) as (hc & _ & ->). simpl.
  destruct (first_thead_app before thead after Hnone Hthead) as [Hfirst Hwithout].
  unfold first_thead_rows, other_rows. rewrite Hfirst, Hwithout. simpl.
  rewrite !flat_map_app, Hempty. simpl. rewrite (thead_rows _ Hthead).
  reflexivity.
Qed.

Lemma thead_first_keeps_document_order_witness :
  rows {| headingRows := Js.Num 1; headingColumns := Js.Num 0;
          rows := [cell_row "1"; cell_row "2"] |}
  = List.flat_map section_rows (children_of caption_table).
Proof.
  apply (thead_first_keeps_document_order "table" ∅
           [ViewText " "; el "caption" [ViewText "t"]]
           (el "thead" [cell_row "1"]) [ViewText " "; el "tbody" [cell_row "2"]]);
    reflexivity.
Defined.

Lemma without_first_thead_none (tableChildren : list ViewNode) :
  first_thead tableChildren = None ->
  without_first_thead tableChildren = tableChildren.
Proof.
  unfold first_thead. induction tableChildren as [|c rest IH]; simpl;
    [reflexivity|].
  destruct (name_is c "thead"); [discriminate|].
  intros Hnone. rewrite (IH Hnone). reflexivity.
Qed.

(** X7.  A table without a [thead] has no heading row: [headingRows] is 0
    and the rows are those of the sections, in document order. *)
Theorem no_thead_no_heading_rows :
  forall viewTable meta,
    first_thead (children_of viewTable) = None ->
    scanTable viewTable = Js.Normal meta ->
    headingRows meta = Js.Num 0
    /\ rows meta = List.flat_map section_rows (children_of viewTable).
Proof.
  intros viewTable meta Hnone Hscan.
  destruct (scanTable_element _ _ Hscan) as (hc & _ & ->). simpl.
  unfold first_thead_rows, other_rows. rewrite Hnone. simpl.
  rewrite (without_first_thead_none _ Hnone). split; reflexivity.
Qed.

Lemma no_thead_no_heading_rows_witness :
  headingRows {| headingRows := Js.Num 0; headingColumns := Js.Num 3;
                 rows := [scenario_B_row] |} = Js.Num 0
  /\ [scenario_B_row] = List.flat_map section_rows (children_of scenario_B).
Proof.
  apply (no_thead_no_heading_rows scenario_B); [reflexivity|].
  vm_compute. reflexivity.
Defined.

Lemma append_section_rows (tableChildren : list ViewNode) (section : ViewNode) :
  name_is section "thead" = false \/ first_thead tableChildren <> None ->
  first_thead_rows (tableChildren ++ [section]) = first_thead_rows tableChildren
  /\ other_rows (tableChildren ++ [section])
     = other_rows tableChildren ++ section_rows section.
Proof.
  unfold first_thead_rows, other_rows, first_thead.
  induction tableChildren as [|c rest IH]; simpl; intros Hcond.
  - destruct Hcond as [Hthead|Hne]; [|contradiction].
    rewrite Hthead. simpl. rewrite app_nil_r. split; reflexivity.
  - destruct (name_is c "thead") eqn:Hc; simpl.
    + rewrite flat_map_app. simpl. rewrite app_nil_r. split; reflexivity.
    + destruct (IH Hcond) as [IH1 IH2]. rewrite IH1, IH2, app_assoc.
      split; reflexivity.
Qed.

(** X8.  A section added after the others, when it is not the first
    [thead] of the table, adds its rows at the end of the rows: the rows
    scanned before keep their places, [headingRows] stays what it was and
    [headingColumns] does not decrease. *)
Theorem appended_section_extends_the_scan :
  forall name attrs tableChildren section meta meta',
    is_section section = true ->
    name_is section "thead" = false \/ first_thead tableChildren <> None ->
    scanTable (ViewElement name attrs tableChildren) = Js.Normal meta ->
    scanTable (ViewElement name attrs (tableChildren ++ [section]))
    = Js.Normal meta' ->
    rows meta' = rows meta ++ children_of section
    /\ headingRows meta' = headingRows meta
    /\ exists z z', headingColumns meta = Js.Num z
         /\ headingColumns meta' = Js.Num z' /\ (z <= z')%Z.
Proof.
  intros name attrs tableChildren section meta meta' Hsec Hcond Hscan Hscan'.
  destruct (scanTable_element _ _ Hscan) as (hc & Hw & ->).
  destruct (scanTable_element _ _ Hscan') as (hc' & Hw' & ->). simpl in *.
  destruct (append_section_rows tableChildren section Hcond) as [Hheads Hothers].
  rewrite Hheads, Hothers in *. unfold section_rows in *. rewrite Hsec in *.
  split; [rewrite app_assoc; reflexivity|]. split; [reflexivity|].
  rewrite widest_app, Hw in Hw'. simpl in Hw'.
  destruct (widest_maximum _ _ _ Hw) as (z & -> & _).
  destruct (widest_maximum _ _ _ Hw') as (z' & -> & Hle & _).
  exists z, z'. repeat split. exact Hle.
Qed.

Lemma appended_section_extends_the_scan_witness :
  exists meta',
    scanTable (el "table" (children_of scenario_A ++ [el "tfoot" [span_row "2"]]))
    = Js.Normal meta'
    /\ rows meta' = [cell_row "1"; cell_row "2"; cell_row "3"; span_row "2"]
    /\ headingRows meta' = Js.Num 1.
Proof.
  assert (scanTable
            (el "table" (children_of scenario_A ++ [el "tfoot" [span_row "2"]]))
          = Js.Normal {| headingRows := Js.Num 1; headingColumns := Js.Num 2;
                         rows := [cell_row "1"; cell_row "2"; cell_row "3";
                                  span_row "2"] |}) as Hscan'
    by (vm_compute; reflexivity).
  eexists. split; [exact Hscan'|].
  destruct (appended_section_extends_the_scan "table" ∅ (children_of scenario_A)
              (el "tfoot" [span_row "2"]) _ _ eq_refl (or_introl eq_refl)
              scenario_A_scan Hscan') as (Hrows & Hheading & _).
  split; [exact Hrows|exact Hheading].
Defined.

(** ** The scan of a row: well-formed spans, ignored children *)

Lemma colspan_well_formed (th : ViewNode) :
  well_formed_colspan th = true -> exists c, colspan th = Js.Num c /\ (1 <= c)%Z.
Proof.
  destruct th as [d|name attrs children]; [discriminate|].
  unfold well_formed_colspan, colspan, parseInt_or_1.
  destruct (attrs !! "colspan") as [s|]; [|intros _; exists 1%Z; split; [reflexivity|lia]].
  case_bool_decide as Hs; simpl.
  - intros _. exists 1%Z. split; [reflexivity|lia].
  - intros Hpos. destruct (parseInt_positive s Hpos) as (Hgt & -> & _).
    eexists. split; [reflexivity|lia].
Qed.

Lemma colspan_absent (th : ViewNode) :
  no_colspan th = true -> colspan th = Js.Num 1.
Proof.
  destruct th as [d|name attrs children]; [discriminate|].
  unfold no_colspan, colspan. intros H. apply bool_decide_eq_true in H.
  rewrite H. reflexivity.
Qed.

Lemma sum_well_formed (ths : list ViewNode) :
  forallb well_formed_colspan ths = true ->
  forall a, exists z,
    List.fold_left Js.add (List.map colspan ths) (Js.Num a) = Js.Num z
    /\ (a + Z.of_nat (length ths) <= z)%Z.
Proof.
  induction ths as [|th ths IH]; simpl; intros Hall a.
  - exists a. split; [reflexivity|lia].
  - apply andb_true_iff in Hall as [Hth Hths].
    destruct (colspan_well_formed th Hth) as (c & -> & Hc). simpl.
    destruct (IH Hths (a + c)%Z) as (z & -> & Hz). exists z. split; [reflexivity|lia].
Qed.

Lemma sum_absent (ths : list ViewNode) :
  forallb no_colspan ths = true ->
  forall a,
    List.fold_left Js.add (List.map colspan ths) (Js.Num a)
    = Js.Num (a + Z.of_nat (length ths)).
Proof.
  induction ths as [|th ths IH]; simpl; intros Hall a.
  - f_equal. lia.
  - apply andb_true_iff in Hall as [Hth Hths].
    rewrite (colspan_absent th Hth). simpl. rewrite (IH Hths). f_equal. lia.
Qed.

(** X9.  When every heading cell of the leading run of a row has a
    well-formed span (no [colspan], an empty one, or a positive integer), the
    row's count is a number and at least the number of these cells; when
    none of them has a [colspan], it is exactly their number. *)
Theorem well_formed_row_counts_its_heading_cells :
  forall name attrs children,
    (forallb well_formed_colspan (th_prefix (List.filter is_cell children))
     = true ->
     exists z,
       scanRowForHeadingColumns (ViewElement name attrs children)
       = Js.Normal (Js.Num z)
       /\ (Z.of_nat (length (th_prefix (List.filter is_cell children))) <= z)%Z)
    /\ (forallb no_colspan (th_prefix (List.filter is_cell children)) = true ->
        scanRowForHeadingColumns (ViewElement name attrs children)
        = Js.Normal
            (Js.Num (Z.of_nat (length (th_prefix (List.filter is_cell children)))))).
Proof.
  intros name attrs children. rewrite scanRow_element. unfold sum_of_spans. split.
  - intros Hall. destruct (sum_well_formed _ Hall 0%Z) as (z & -> & Hz).
    exists z. split; [reflexivity|lia].
  - intros Hall. rewrite (sum_absent _ Hall). reflexivity.
Qed.

Lemma well_formed_row_counts_its_heading_cells_witness :
  (exists z, scanRowForHeadingColumns scenario_B_row = Js.Normal (Js.Num z)
     /\ (2 <= z)%Z)
  /\ scanRowForHeadingColumns (el "tr" [el "th" []; el "th" []; el "td" []])
     = Js.Normal (Js.Num 2).
Proof.
  split.
  - exact (proj1 (well_formed_row_counts_its_heading_cells "tr" ∅
                    (children_of scenario_B_row)) eq_refl).
  - exact (proj2 (well_formed_row_counts_its_heading_cells "tr" ∅
                    [el "th" []; el "th" []; el "td" []]) eq_refl).
Defined.

Lemma th_prefix_run (ths : list ViewNode) (rest : list ViewNode) :
  forallb (fun c => name_is c "th") ths = true ->
  (forall c rest', rest = c :: rest' -> name_is c "th" = false) ->
  List.filter is_cell ths = ths
  /\ th_prefix (ths ++ rest) = ths.
Proof.
  intros Hths Hrest. induction ths as [|th ths IH]; simpl in *.
  - split; [reflexivity|]. destruct rest as [|c rest']; [reflexivity|].
    simpl. rewrite (Hrest c rest' eq_refl). reflexivity.
  - apply andb_true_iff in Hths as [Hth Hths]. unfold is_cell at 1.
    rewrite Hth. simpl. destruct (IH Hths) as [-> ->]. split; reflexivity.
Qed.

(** X10.  The scan of a row sees its [th] and [td] children only, and of
    these only the run of [th] before the first [td]: the other children
    can be removed, and so can everything from the first [td] on, without
    changing the count. *)
Theorem row_scan_sees_the_leading_th_only :
  forall name attrs children,
    scanRowForHeadingColumns (ViewElement name attrs children)
    = scanRowForHeadingColumns
        (ViewElement name attrs (List.filter is_cell children))
    /\ forall ths td rest,
         forallb (fun c => name_is c "th") ths = true ->
         name_is td "td" = true ->
         scanRowForHeadingColumns (ViewElement name attrs (ths ++ td :: rest))
         = scanRowForHeadingColumns (ViewElement name attrs ths).
Proof.
  intros name attrs children. rewrite !scanRow_element. split.
  - do 2 f_equal. f_equal.
    induction children as [|c rest IH]; simpl; [reflexivity|].
    destruct (is_cell c) eqn:Hc; simpl; rewrite ?Hc, <- IH; reflexivity.
  - intros ths td rest Hths Htd.
    assert (name_is td "th" = false) as Hnot.
    { destruct td as [d|n a cs]; [reflexivity|]. unfold name_is in *. simpl in *.
      apply bool_decide_eq_true in Htd. injection Htd as ->. reflexivity. }
    assert (is_cell td = true) as Hcell
      by (unfold is_cell; rewrite Htd, orb_true_r; reflexivity).
    rewrite !scanRow_element, List.filter_app. simpl. rewrite Hcell.
    destruct (th_prefix_run ths (td :: List.filter is_cell rest) Hths) as [-> ->].
    { intros c rest' [= <- _]. exact Hnot. }
    destruct (th_prefix_run ths [] Hths) as [_ Hrun]; [discriminate|].
    rewrite app_nil_r in Hrun. rewrite Hrun. reflexivity.
Qed.

Lemma row_scan_sees_the_leading_th_only_witness :
  scanRowForHeadingColumns
    (el "tr" [th_colspan "2"; el "td" []; th_colspan "5"; ViewText "x"])
  = scanRowForHeadingColumns (el "tr" [th_colspan "2"]).
Proof.
  exact (proj2 (row_scan_sees_the_leading_th_only "tr" ∅ [])
           [th_colspan "2"] (el "td" []) [th_colspan "5"; ViewText "x"]
           eq_refl eq_refl).
Defined.

(** ** The converters: guards, exceptions, order of the calls *)

(** X11.  A table that an earlier converter has consumed is skipped: the
    table listener only asks the ledger, scans nothing (a table whose scan
    would throw is skipped like any other), and leaves [data] and the engine
    as they were. *)
Theorem consumed_table_is_skipped :
  forall (W : Type) (api : ConversionApi W) (w : W) (data : Data),
    api_test api (viewItem data) w = false ->
    exec api (upcastTable_listener data) w
    = {| returned := Js.Normal data; final := w;
         calls := [consumable_test (viewItem data)] |}.
Proof. intros W api w data H. apply upcastTable_consumed. exact H. Qed.

Lemma consumed_table_is_skipped_witness :
  exec (ref_api schema_placed) (upcastTable_listener (data_at_root text_row_table))
    (ref_consumed text_row_table)
  = {| returned := Js.Normal (data_at_root text_row_table);
       final := ref_consumed text_row_table;
       calls := [consumable_test text_row_table] |}.
Proof.
  exact (consumed_table_is_skipped RefWorld (ref_api schema_placed)
           (ref_consumed text_row_table) (data_at_root text_row_table) eq_refl).
Defined.

(** X12.  A cell that an earlier converter has consumed is skipped in the
    same way by the cell listener. *)
Theorem consumed_cell_is_skipped :
  forall (W : Type) (api : ConversionApi W) (w : W) (data : Data),
    api_test api (viewItem data) w = false ->
    exec api (upcastTableCell_listener data) w
    = {| returned := Js.Normal data; final := w;
         calls := [consumable_test (viewItem data)] |}.
Proof. intros W api w data H. apply upcastTableCell_consumed. exact H. Qed.

Lemma consumed_cell_is_skipped_witness :
  exec (ref_api schema_placed) (upcastTableCell_listener (data_at_root (el "td" [])))
    (ref_consumed (el "td" []))
  = {| returned := Js.Normal (data_at_root (el "td" []));
       final := ref_consumed (el "td" []);
       calls := [consumable_test (el "td" [])] |}.
Proof.
  exact (consumed_cell_is_skipped RefWorld (ref_api schema_placed)
           (ref_consumed (el "td" [])) (data_at_root (el "td" [])) eq_refl).
Defined.



(** X15.  Each listener consumes its view item exactly when it places the
    new element: in every run, a call consumes if and only if a call
    inserts.  In such a run the scan has returned and [splitToAllowedParent]
    has given a result; the fourth call inserts the element that the second
    call created, at the position of that result, the fifth call consumes
    the view item of [data], and no other call consumes. *)
Theorem consumed_iff_inserted :
  forall (W : Type) (api : ConversionApi W) (w : W) (data : Data),
    (existsb consumes (calls (exec api (upcastTable_listener data) w))
     = existsb inserts (calls (exec api (upcastTable_listener data) w))
     /\ (existsb consumes (calls (exec api (upcastTable_listener data) w)) = true ->
         exists meta splitResult,
           scanTable (viewItem data) = Js.Normal meta
           /\ (table_split api w data meta).1 = Some splitResult
           /\ calls (exec api (upcastTable_listener data) w) !! 1
              = Some (writer_createElement "table"
                        (table_attributes (headingRows meta)
                           (headingColumns meta)))
           /\ take 2 (drop 3 (calls (exec api (upcastTable_listener data) w)))
              = [writer_insert (table_created api w meta).1
                   (position splitResult);
                 consumable_consume (viewItem data)]
           /\ List.filter consumes
                (calls (exec api (upcastTable_listener data) w))
              = [consumable_consume (viewItem data)]))
    /\ (existsb consumes (calls (exec api (upcastTableCell_listener data) w))
        = existsb inserts (calls (exec api (upcastTableCell_listener data) w))
        /\ (existsb consumes (calls (exec api (upcastTableCell_listener data) w))
            = true ->
            exists splitResult,
              (cell_split api w data).1 = Some splitResult
              /\ calls (exec api (upcastTableCell_listener data) w) !! 1
                 = Some (writer_createElement "tableCell" ∅)
              /\ take 2 (drop 3 (calls (exec api (upcastTableCell_listener data) w)))
                 = [writer_insert (cell_created api w).1 (position splitResult);
                    consumable_consume (viewItem data)]
              /\ List.filter consumes
                   (calls (exec api (upcastTableCell_listener data) w))
                 = [consumable_consume (viewItem data)])).
Proof.
  intros W api w data. split.
  - destruct (api_test api (viewItem data) w) eqn:Htest.
    + destruct (scanTable (viewItem data)) as [meta|e] eqn:Hscan.
      * destruct (table_split api w data meta).1 as [splitResult|] eqn:Hsplit.
        -- rewrite (upcastTable_placed api w data meta splitResult Htest Hscan Hsplit).
           split; [reflexivity|]. intros _. exists meta, splitResult.
           split; [reflexivity|]. split; [exact Hsplit|].
           split; [reflexivity|]. split; [reflexivity|].
           cbn [calls]. simpl. f_equal.
           destruct (negb (Nat.eqb (length (rows meta)) 0)); [|reflexivity].
           induction (rows meta) as [|row rest IH]; [reflexivity|exact IH].
        -- rewrite (upcastTable_rejected api w data meta Htest Hscan Hsplit).
           split; [reflexivity|discriminate].
      * rewrite (upcastTable_scan_throws api w data e Htest Hscan).
        split; [reflexivity|discriminate].
    + rewrite (upcastTable_consumed api w data Htest).
      split; [reflexivity|discriminate].
  - destruct (api_test api (viewItem data) w) eqn:Htest.
    + destruct (cell_split api w data).1 as [splitResult|] eqn:Hsplit.
      * rewrite (upcastTableCell_placed api w data splitResult Htest Hsplit).
        split; [reflexivity|]. intros _. exists splitResult.
        split; [first [exact Hsplit|reflexivity]|].
        split; [reflexivity|]. split; [reflexivity|].
        cbn [calls]. simpl. destruct (Nat.eqb _ 0); reflexivity.
      * rewrite (upcastTableCell_rejected api w data Htest Hsplit).
        split; [reflexivity|discriminate].
    + rewrite (upcastTableCell_consumed api w data Htest).
      split; [reflexivity|discriminate].
Qed.

(** X16.  A table with rows is populated through the dispatcher alone: after
    placing and consuming the table, the listener hands each scanned row to
    [convertItem], once, in the order of the scan (heading rows first), each
    time with a cursor at the end of the new table; it creates no row or
    cell itself. *)
Theorem rows_are_dispatched_in_scan_order :
  forall (W : Type) (api : ConversionApi W) (w : W) (data : Data)
         (meta : TableMeta) (splitResult : SplitResult),
    api_test api (viewItem data) w = true ->
    scanTable (viewItem data) = Js.Normal meta ->
    rows meta <> [] ->
    (table_split api w data meta).1 = Some splitResult ->
    let table := (table_created api w meta).1 in
    let o := exec api (upcastTable_listener data) w in
    drop 5 (calls o)
    = List.map (fun row => convertItem row (createAt table (Some "end")))
        (rows meta)
    /\ List.filter dispatches (calls o) = drop 5 (calls o)
    /\ final o
       = List.fold_left
           (fun w row => api_convertItem api row (createAt table (Some "end")) w)
           (rows meta) (table_consumed api w data meta splitResult)
    /\ (forall name attributes,
          In (writer_createElement name attributes) (calls o) -> name = "table").
Proof.
  intros W api w data meta splitResult Htest Hscan Hrows Hsplit table o. subst o.
  rewrite (upcastTable_placed api w data meta splitResult Htest Hscan Hsplit).
  unfold table_populated.
  assert (negb (Nat.eqb (length (rows meta)) 0) = true) as ->.
  { destruct (rows meta); [contradiction|reflexivity]. }
  cbn [calls final]. split; [reflexivity|]. split; [|split; [reflexivity|]].
  - simpl. clear Hrows. induction (rows meta) as [|row rest IH]; simpl;
      [reflexivity|]. f_equal. exact IH.
  - intros name attributes Hin. simpl in Hin.
    destruct Hin as [Hin|[Hin|[Hin|[Hin|[Hin|Hin]]]]]; try discriminate.
    + injection Hin as <- _. reflexivity.
    + apply in_map_iff in Hin as (row & Hrow & _). discriminate.
Qed.

Lemma rows_are_dispatched_in_scan_order_witness :
  drop 5 (calls (exec (ref_api schema_placed)
                   (upcastTable_listener (data_at_root scenario_A)) ref_start))
  = [convertItem (cell_row "1") (createAt 3 (Some "end"));
     convertItem (cell_row "2") (createAt 3 (Some "end"));
     convertItem (cell_row "3") (createAt 3 (Some "end"))].
Proof.
  exact (proj1 (rows_are_dispatched_in_scan_order RefWorld (ref_api schema_placed)
                  ref_start (data_at_root scenario_A) _
                  {| position := createAt 0 (Some "end"); cursorParent := None |}
                  eq_refl scenario_A_scan ltac:(discriminate) eq_refl)).
Defined.

(** X17.  A placed cell is made the same way whatever the view cell is: the
    element created is a [tableCell] without attributes (the name of the
    view cell and its attributes, spans included, are not looked at), and
    the children of the view cell are handed to [convertChildren] once,
    after the cell is inserted and consumed, with a cursor at the start of
    the new cell. *)
Theorem placed_cell_call_sequence :
  forall (W : Type) (api : ConversionApi W) (w : W) (data : Data)
         (splitResult : SplitResult),
    api_test api (viewItem data) w = true ->
    (cell_split api w data).1 = Some splitResult ->
    let cell := (cell_created api w).1 in
    let o := exec api (upcastTableCell_listener data) w in
    take 7 (calls o)
    = [consumable_test (viewItem data);
       writer_createElement "tableCell" ∅;
       splitToAllowedParent cell (modelCursor data);
       writer_insert cell (position splitResult);
       consumable_consume (viewItem data);
       convertChildren (viewItem data) (createAt cell None);
       element_childCount cell]
    /\ List.filter dispatches (calls o)
       = [convertChildren (viewItem data) (createAt cell None)]
    /\ (forall name attributes,
          In (writer_createElement name attributes) (calls o) ->
          name = "tableCell" /\ attributes = ∅)
    /\ length (calls o) <= 8.
Proof.
  intros W api w data splitResult Htest Hsplit cell o. subst o.
  rewrite (upcastTableCell_placed api w data splitResult Htest Hsplit).
  cbn [calls]. fold cell.
  destruct (Nat.eqb (api_childCount api cell (cell_converted api w data splitResult)) 0);
    simpl; (split; [reflexivity|]); (split; [reflexivity|]); (split; [|lia]);
    intros name attributes Hin;
    repeat (destruct Hin as [Hin|Hin]; try discriminate; try contradiction);
    injection Hin as <- <-; split; reflexivity.
Qed.

Lemma placed_cell_call_sequence_witness :
  List.filter dispatches
    (calls (exec (ref_api schema_placed)
              (upcastTableCell_listener
                 (data_at_root (ViewElement "th" {[ "colspan" := "2" ]}
                                  [ViewText "A"]))) ref_start))
  = [convertChildren (ViewElement "th" {[ "colspan" := "2" ]} [ViewText "A"])
       (createAt 3 None)].
Proof.
  destruct (placed_cell_call_sequence RefWorld (ref_api schema_placed) ref_start
              (data_at_root (ViewElement "th" {[ "colspan" := "2" ]}
                               [ViewText "A"]))
              {| position := createAt 0 (Some "end"); cursorParent := None |}
              eq_refl eq_refl) as (_ & Hdispatched & _).
  exact Hdispatched.
Defined.

(** X18.  The table listener hands to the dispatcher nothing but rows of the
    sections of the table, each through [convertItem] with a cursor at the
    end of the table element that this run has created and placed: a caption
    or any other child of the table outside [thead], [tbody] and [tfoot] is
    never converted by it, and it never calls [convertChildren]. *)
Theorem table_listener_dispatches_section_rows_only :
  forall (W : Type) (api : ConversionApi W) (w : W) (data : Data) (c : ApiCall),
    In c (calls (exec api (upcastTable_listener data) w)) ->
    dispatches c = true ->
    exists meta splitResult row,
      scanTable (viewItem data) = Js.Normal meta
      /\ (table_split api w data meta).1 = Some splitResult
      /\ c = convertItem row
               (createAt (table_created api w meta).1 (Some "end"))
      /\ In row (rows meta)
      /\ In row (List.flat_map section_rows (children_of (viewItem data))).
Proof.
  intros W api w data c Hin Hc.
  destruct (api_test api (viewItem data) w) eqn:Htest.
  - destruct (scanTable (viewItem data)) as [meta|e] eqn:Hscan.
    + destruct (table_split api w data meta).1 as [splitResult|] eqn:Hsplit.
      * rewrite (upcastTable_placed api w data meta splitResult Htest Hscan Hsplit)
          in Hin.
        cbn [calls] in Hin. apply in_app_iff in Hin as [Hin|Hin].
        { simpl in Hin.
          repeat (destruct Hin as [Hin|Hin]; [subst c; discriminate|]).
          contradiction. }
        destruct (negb (Nat.eqb (length (rows meta)) 0)).
        -- apply in_map_iff in Hin as (row & <- & Hrow).
           exists meta, splitResult, row.
           split; [reflexivity|]. split; [exact Hsplit|].
           split; [reflexivity|]. split; [exact Hrow|].
           destruct (scanTable_element _ _ Hscan) as (hc & _ & ->). simpl in Hrow.
           apply (Permutation_in _ (rows_permutation _)). exact Hrow.
        -- simpl in Hin.
           repeat (destruct Hin as [Hin|Hin]; [subst c; discriminate|]).
           contradiction.
      * rewrite (upcastTable_rejected api w data meta Htest Hscan Hsplit) in Hin.
        simpl in Hin.
        repeat (destruct Hin as [Hin|Hin]; [subst c; discriminate|]).
        contradiction.
    + rewrite (upcastTable_scan_throws api w data e Htest Hscan) in Hin.
      simpl in Hin. destruct Hin as [<-|[]]. discriminate.
  - rewrite (upcastTable_consumed api w data Htest) in Hin.
    simpl in Hin. destruct Hin as [<-|[]]. discriminate.
Qed.

Lemma table_listener_dispatches_section_rows_only_witness :
  exists meta splitResult row,
    scanTable caption_table = Js.Normal meta
    /\ (table_split (ref_api schema_placed) ref_start
          (data_at_root caption_table) meta).1 = Some splitResult
    /\ convertItem (cell_row "2") (createAt 3 (Some "end"))
       = convertItem row
           (createAt (table_created (ref_api schema_placed) ref_start meta).1
              (Some "end"))
    /\ In row (rows meta)
    /\ In row (List.flat_map section_rows (children_of caption_table)).
Proof.
  apply (table_listener_dispatches_section_rows_only RefWorld
           (ref_api schema_placed) ref_start (data_at_root caption_table));
    [|reflexivity].
  vm_compute. do 6 right. left. reflexivity.
Defined.

Lemma scanTable_throws_iff_text_body_row_witness :
  exists e, scanTable text_row_table = Js.Throw e.
Proof.
  apply (proj2 (scanTable_throws_iff_text_body_row "table" ∅
                  (children_of text_row_table))).
  exists (ViewText "x"). split; [left; reflexivity|reflexivity].
Defined.


Lemma consumed_iff_inserted_witness :
  exists meta splitResult,
    scanTable scenario_A = Js.Normal meta
    /\ (table_split (ref_api schema_placed) ref_start
          (data_at_root scenario_A) meta).1 = Some splitResult
    /\ take 2 (drop 3 (calls (exec (ref_api schema_placed)
                                (upcastTable_listener (data_at_root scenario_A))
                                ref_start)))
       = [writer_insert
            (table_created (ref_api schema_placed) ref_start meta).1
            (position splitResult);
          consumable_consume scenario_A].
Proof.
  destruct (proj2 (proj1 (consumed_iff_inserted RefWorld (ref_api schema_placed)
                            ref_start (data_at_root scenario_A))) eq_refl)
    as (meta & splitResult & Hscan & Hsplit & _ & Hcalls & _).
  exists meta, splitResult.
  split; [exact Hscan|]. split; [exact Hsplit|exact Hcalls].
Defined.
